(** * check_mi.py: media integrity checker -- a shallow embedding

    The script [check_mi.py] scans a directory for media files, runs a
    sequence of integrity probes on each file in parallel workers and
    aggregates the outcomes in a collector loop.  This development embeds
    the script's functions as Rocq functions:

    - Python [str] is [string], Python [int] is [Z], [bytes] is
      [list byte];
    - the outside world (file system, PIL, wand, the ImageMagick and
      ffmpeg executables, the clock, the output queue) is a record of
      oracles, [World];
    - a function that calls the outside world or raises runs in the monad
      [M]: it yields the list of events it performed and either the
      exception it raised or its return value.

    The interpreter is Python 3 (the script imports [queue.Empty], which
    only exists there), so the [sys.version_info[0] < 3] branch of
    [check_file] is dead and is not modelled. *)

From Stdlib Require Import ZArith QArith List String Ascii Bool Lia.
From Stdlib.Strings Require Import Byte.
From Stdlib Require Import DecimalString.
Import ListNotations.

Local Open Scope string_scope.
Local Open Scope Z_scope.

(** ** Python values, strings and exceptions *)

Module Py.

(** The values the script prints, compares or stores in tuples. *)
Inductive value :=
| VNone
| VInt (n : Z)
| VStr (s : string).

(** Decimal digits of an [int], as [str(n)] and [repr(n)] give them. *)
Definition str_of_Z (n : Z) : string := NilZero.string_of_int (Z.to_int n).

Definition str (v : value) : string :=
  match v with
  | VNone => "None"
  | VInt n => str_of_Z n
  | VStr s => s
  end.

(** [repr] of a string puts it in single quotes; this is exact for the
    strings without quote, backslash or control characters, which is what
    the script's only multi-argument exception carries. *)
Definition repr (v : value) : string :=
  match v with
  | VStr s => "'" ++ s ++ "'"
  | _ => str v
  end.

Fixpoint join (sep : string) (l : list string) : string :=
  match l with
  | [] => ""
  | [x] => x
  | x :: rest => x ++ sep ++ join sep rest
  end.

(** [repr] of a tuple; a one-element tuple keeps its trailing comma. *)
Definition repr_tuple (vs : list value) : string :=
  match vs with
  | [v] => "(" ++ repr v ++ ",)"
  | _ => "(" ++ join ", " (map repr vs) ++ ")"
  end.

(** The classes of [Exception] the script raises, catches or meets. *)
Inductive exn_class :=
| Exception
| SyntaxError
| OSError
| AttributeError
| ZeroDivisionError
| Warning
| CorruptImageError
| Empty
| LibraryError (name : string).

Record exn := Exn { exn_cls : exn_class; exn_args : list value }.

(** [BaseException.__str__]: no argument gives the empty string, one
    argument its [str], several the [repr] of the argument tuple. *)
Definition str_exn (e : exn) : string :=
  match exn_args e with
  | [] => ""
  | [a] => str a
  | args => repr_tuple args
  end.

Definition class_name (c : exn_class) : string :=
  match c with
  | Exception => "Exception"
  | SyntaxError => "SyntaxError"
  | OSError => "OSError"
  | AttributeError => "AttributeError"
  | ZeroDivisionError => "ZeroDivisionError"
  | Warning => "Warning"
  | CorruptImageError => "CorruptImageError"
  | Empty => "Empty"
  | LibraryError name => name
  end.

Definition is_Warning (c : exn_class) : bool :=
  match c with Warning => true | _ => false end.

Definition is_Empty (c : exn_class) : bool :=
  match c with Empty => true | _ => false end.

Definition no_attribute (type_name attr : string) : exn :=
  Exn AttributeError
      [VStr ("'" ++ type_name ++ "' object has no attribute '" ++ attr ++ "'")].

(** Attribute lookup on an exception instance.  In Python 3 an exception
    carries [args] and nothing else by default: [message] is gone. *)
Definition getattr_exn (e : exn) (attr : string) : exn + list value :=
  if String.eqb attr "args" then inr (exn_args e)
  else inl (no_attribute (class_name (exn_cls e)) attr).

(** *** [str.lower], [str.rfind] and slices (on ASCII text) *)

Definition lower_ascii (c : ascii) : ascii :=
  let n := N_of_ascii c in
  if ((65 <=? n) && (n <=? 90))%N then ascii_of_N (n + 32) else c.

Fixpoint lower (s : string) : string :=
  match s with
  | EmptyString => EmptyString
  | String c s' => String (lower_ascii c) (lower s')
  end.

(** [s.rfind(c)]: the highest index of [c] in [s], or [-1]. *)
Fixpoint rfind (s : string) (c : ascii) : Z :=
  match s with
  | EmptyString => -1
  | String a s' =>
      let r := rfind s' c in
      if 0 <=? r then r + 1
      else if Ascii.eqb a c then 0 else -1
  end.

(** [s[:n]] and [s[n:]] for [0 <= n]. *)
Fixpoint take (n : nat) (s : string) : string :=
  match n, s with
  | S k, String a s' => String a (take k s')
  | _, _ => EmptyString
  end.

Fixpoint drop (n : nat) (s : string) : string :=
  match n, s with
  | S k, String _ s' => drop k s'
  | _, _ => s
  end.

Definition slice_to (s : string) (i : Z) : string := take (Z.to_nat i) s.
Definition slice_from (s : string) (i : Z) : string := drop (Z.to_nat i) s.

(** [s[i:i+1]] for [0 <= i]: one character, or empty past the end. *)
Definition slice1 (s : string) (i : Z) : string :=
  take 1 (drop (Z.to_nat i) s).

(** [x in l] for a list of strings. *)
Definition mem (x : string) (l : list string) : bool :=
  existsb (String.eqb x) l.

End Py.

Import Py.

(** ** [os.path] on a POSIX host *)

Module OsPath.

Definition sep : ascii := "/"%char.
Definition extsep : ascii := "."%char.

(** The [while filenameIndex < dotIndex] loop of [genericpath._splitext]:
    it runs [dotIndex - filenameIndex] times at most, which is [fuel]. *)
Fixpoint skip_leading_dots (p : string) (dotIndex : Z) (fuel : nat)
         (filenameIndex : Z) : string * string :=
  match fuel with
  | O => (p, slice_to p 0)
  | S fuel' =>
      if negb (String.eqb (slice1 p filenameIndex) (String extsep EmptyString))
      then (slice_to p dotIndex, slice_from p dotIndex)
      else skip_leading_dots p dotIndex fuel' (filenameIndex + 1)
  end.

(** [os.path.splitext] ([posixpath]: [sep] is [/], there is no [altsep]). *)
Definition splitext (p : string) : string * string :=
  let sepIndex := rfind p sep in
  let dotIndex := rfind p extsep in
  if dotIndex >? sepIndex then
    let filenameIndex := sepIndex + 1 in
    skip_leading_dots p dotIndex (Z.to_nat (dotIndex - filenameIndex))
                      filenameIndex
  else (p, slice_to p 0).

(** [os.path.join(a, b)] for two components. *)
Definition startswith_sep (b : string) : bool :=
  match b with
  | String c _ => Ascii.eqb c sep
  | EmptyString => false
  end.

Definition endswith_sep (a : string) : bool :=
  String.eqb (slice_from a (Z.of_nat (String.length a) - 1))
             (String sep EmptyString).

Definition join (a b : string) : string :=
  if startswith_sep b then b
  else if orb (String.eqb a "") (endswith_sep a) then a ++ b
  else a ++ String sep b.

End OsPath.

(** ** Events, exceptions and the monad of effectful functions *)

(** What the script does to the outside world, in the order it does it. *)
Inductive event :=
| EStat (filename : string)                  (* os.stat *)
| EReadFile (filename : string)              (* open(filename, "rb").read() *)
| EPilVerify (filename : string)             (* ImageP.open + verify *)
| EPilTranspose (filename : string)          (* ImageP.open + transpose *)
| EWandImage (filename : string)             (* ImageW(filename=...) *)
| EWandMakeBlob (filename : string)          (* img.make_blob(format='bmp') *)
| EMagickIdentify (filename : string)        (* magick identify -regard-warnings *)
| EFfmpegRun (filename : string) (kwargs : list (string * value))
| EPathExists (path : string)
| ERemove (path : string)
| EPrint (line : list value)                 (* print of these arguments *)
| EPrintProgress (num_bad_files num_files : Z) (processed_size_MB : Q)
| EPrintSpeed (speed_MB speed_IS : Q)
| EWriteCsv (filename : string) (rows : list (list value)).

Definition M (A : Type) : Type := list event * (exn + A).

Definition ret {A} (a : A) : M A := ([], inr a).
Definition raise {A} (e : exn) : M A := ([], inl e).
Definition emit (ev : event) : M unit := ([ev], inr tt).

Definition bind {A B} (m : M A) (k : A -> M B) : M B :=
  match m with
  | (t, inl e) => (t, inl e)
  | (t, inr a) => let (t', r) := k a in ((t ++ t')%list, r)
  end.

(** [try: m  except <classes accepted by handles> as e: handler e]. *)
Definition try_except {A} (m : M A) (handles : exn_class -> bool)
           (handler : exn -> M A) : M A :=
  match m with
  | (t, inl e) =>
      if handles (exn_cls e)
      then let (t', r) := handler e in ((t ++ t')%list, r)
      else (t, inl e)
  | (t, inr a) => (t, inr a)
  end.

(** An outside call: the event, then what the oracle answered. *)
Definition call {A} (ev : event) (answer : exn + A) : M A := ([ev], answer).

(** A call that returns nothing: the oracle gives the exception, if any. *)
Definition call_ (ev : event) (answer : option exn) : M unit :=
  ([ev], match answer with Some e => inl e | None => inr tt end).

Declare Scope py_scope.
Delimit Scope py_scope with py.
Notation "x <- m ;; k" := (bind m (fun x => k))
  (at level 61, m at next level, right associativity) : py_scope.
Notation "m ;; k" := (bind m (fun _ => k))
  (at level 61, right associativity) : py_scope.
Local Open Scope py_scope.

Definition trace {A} (m : M A) : list event := fst m.
Definition result {A} (m : M A) : exn + A := snd m.

(** ** Outcomes *)

(** The third field of an outcome: the string ['NA'] or the size. *)
Inductive file_size :=
| NA
| Bytes (n : Z).

(** [(filename, error message or None, file size)] *)
Definition detail : Type := string * option string * file_size.

(** What [check_file] returns: [(is_success, detail)]. *)
Definition outcome : Type := bool * detail.

(** ** The outside world *)

Record World := {
  (** [os.stat(filename).st_size], or the [OSError] raised *)
  os_stat_size : string -> exn + Z;
  (** the bytes [open(filename, "rb").read()] returns, or the error *)
  file_read : string -> exn + list byte;
  pil_verify : string -> option exn;
  pil_transpose : string -> option exn;
  wand_image : string -> option exn;
  wand_make_blob : string -> option exn;
  (** exit code of [magick identify], or the error of starting it *)
  magick_identify : string -> exn + Z;
  (** [stream.run] of the ffmpeg stream built from the input arguments *)
  ffmpeg_run : string -> list (string * value) -> option exn;
  os_path_isfile : string -> bool;
  os_path_exists : string -> bool;
  os_remove : string -> option exn;
  (** [os.walk(top)]: the [(root, files)] of each directory visited *)
  os_walk : string -> list (string * list string);
  (** ['post' in PIL.__version__] *)
  pil_simd : bool;
  (** [open(filename, mode='w')]: the error, if the file cannot be opened *)
  open_write : string -> option exn;
  (** [time.time()] at the points where [main] may read the clock:
      [0] is [TimedLogger().start()], [j + 1] is turn [j] of the collector
      loop, [pre_count + 1] is the final report *)
  time_time : nat -> Q;
  (** the [j]-th [out_queue.get(block=True, timeout=CONFIG.timeout)]:
      the outcome a worker has put, or [None] when the wait times out and
      [Empty] is raised *)
  out_queue_get : nat -> option outcome
}.

(** ** Module constants, configuration and globals *)

Definition UPDATE_SEC_INTERVAL : Z := 5.
Definition UPDATE_MB_INTERVAL : Z := 500.

Definition PIL_EXTENSIONS_0 : list string :=
  ["jpg"; "jpeg"; "jpe"; "png"; "bmp"; "gif"; "pcd"; "tif"; "tiff"; "j2k";
   "j2p"; "j2x"; "webp"].
Definition PIL_EXTRA_EXTENSIONS : list string :=
  ["eps"; "ico"; "im"; "pcx"; "ppm"; "sgi"; "spider"; "xbm"; "tga"].
Definition MAGICK_EXTENSIONS : list string := ["psd"; "xcf"].
Definition VIDEO_EXTENSIONS : list string :=
  ["avi"; "mp4"; "mov"; "mpeg"; "mpg"; "m2p"; "mkv"; "3gp"; "ogg"; "flv";
   "f4v"; "f4p"; "f4a"; "f4b"].
Definition AUDIO_EXTENSIONS : list string := ["mp3"; "mp2"].

(** The namespace [arg_parser] returns. *)
Record Config := {
  checkpath : string;
  csv_filename : option string;
  is_recurse : bool;
  zero_detect : Z;
  is_disable_image : bool;
  is_enable_media : bool;
  is_disable_extra : bool;
  error_detect : string;
  threads : Z;
  timeout : Z
}.

(** [parse_out.enable_csv = parse_out.csv_filename is not None] *)
Definition enable_csv (c : Config) : bool :=
  match csv_filename c with Some _ => true | None => false end.

(** The module globals that are assigned or mutated at run time. *)
Record Globals := {
  PIL_EXTENSIONS : list string;
  MEDIA_EXTENSIONS : list string;
  CONFIG : option Config
}.

Definition initial_globals : Globals :=
  {| PIL_EXTENSIONS := PIL_EXTENSIONS_0;
     MEDIA_EXTENSIONS := [];
     CONFIG := None |}.

Definition setup (configuration : Config) (g : Globals) : Globals :=
  let enable_extra := negb (is_disable_extra configuration) in
  let enable_images := negb (is_disable_image configuration) in
  let enable_media := is_enable_media configuration in
  let pil := if enable_extra
             then (PIL_EXTENSIONS g ++ PIL_EXTRA_EXTENSIONS)%list
             else PIL_EXTENSIONS g in
  let media1 := if enable_images
                then let m := (MEDIA_EXTENSIONS g ++ pil)%list in
                     if enable_extra then (m ++ MAGICK_EXTENSIONS)%list else m
                else MEDIA_EXTENSIONS g in
  let media2 := if enable_media
                then (media1 ++ (VIDEO_EXTENSIONS ++ AUDIO_EXTENSIONS))%list
                else media1 in
  {| PIL_EXTENSIONS := pil; MEDIA_EXTENSIONS := media2; CONFIG := CONFIG g |}.

(** ** The probes *)

Section Probes.

Variable W : World.

Definition pil_check (filename : string) : M unit :=
  call_ (EPilVerify filename) (pil_verify W filename) ;;
  (* Image manipulation is mandatory to detect few defects *)
  call_ (EPilTranspose filename) (pil_transpose W filename).

Definition magick_check (filename : string) (flip : bool) : M unit :=
  try_except
    (call_ (EWandImage filename) (wand_image W filename) ;;
     if flip then ret tt   (* [img.flip] only names the method *)
     else call_ (EWandMakeBlob filename) (wand_make_blob W filename))
    is_Warning
    (fun w => raise (Exn CorruptImageError [VStr (str_exn w)])).

Definition magick_identify_check (filename : string) : M unit :=
  exitcode <- call (EMagickIdentify filename) (magick_identify W filename) ;;
  if negb (exitcode =? 0)
  then raise (Exn Exception [VStr ("Identify error:" ++ str_of_Z exitcode)])
  else ret tt.

(** The four locals of the scanning loop of [check_zeros]. *)
Record zeros_state := {
  num : Z;
  maxnum : Z;
  prev : option byte;
  maxprev : option byte
}.

Definition zeros_init : zeros_state :=
  {| num := 1; maxnum := 1; prev := None; maxprev := None |}.

Definition same_byte (p : option byte) (i : byte) : bool :=
  match p with
  | Some b => Byte.eqb b i
  | None => false
  end.

(** One turn of [for i in thefilearray]. *)
Definition zeros_step (s : zeros_state) (i : byte) : zeros_state :=
  if same_byte (prev s) i then
    {| num := num s + 1; maxnum := maxnum s;
       prev := prev s; maxprev := maxprev s |}
  else
    let '(maxnum', maxprev') :=
      if num s >? maxnum s then (num s, prev s) else (maxnum s, maxprev s) in
    {| num := 1; maxnum := maxnum'; prev := Some i; maxprev := maxprev' |}.

(** After the loop only [maxnum] is brought up to date. *)
Definition zeros_finish (s : zeros_state) : zeros_state :=
  if num s >? maxnum s
  then {| num := num s; maxnum := num s;
          prev := prev s; maxprev := maxprev s |}
  else s.

Definition zeros_scan (thefilearray : list byte) : zeros_state :=
  zeros_finish (fold_left zeros_step thefilearray zeros_init).

Definition value_of_byte (b : option byte) : value :=
  match b with
  | Some b => VInt (Z.of_N (Byte.to_N b))
  | None => VNone
  end.

Definition check_zeros (filename : string) (length_seq_threshold : option Z)
  : M (option Z) :=
  thefilearray <- call (EReadFile filename) (file_read W filename) ;;
  let s := zeros_scan thefilearray in
  match length_seq_threshold with
  | None => ret (Some (maxnum s))
  | Some threshold =>
      if maxnum s >=? threshold
      then raise (Exn Exception [VStr "Equal value sequence, value:";
                                 value_of_byte (maxprev s);
                                 VStr "len:"; VInt (maxnum s)])
      else ret None
  end.

Definition check_size (filename : string) (zero_exception : bool) : M Z :=
  filesize <- call (EStat filename) (os_stat_size W filename) ;;
  if (filesize =? 0) && zero_exception
  then raise (Exn SyntaxError [VStr "Zero size file"])
  else ret filesize.

(** The keyword arguments [ffmpeg_check] gives to [ffmpeg.input]. *)
Definition ffmpeg_input_kwargs (error_detect : string) (threads : Z)
  : list (string * value) :=
  if String.eqb error_detect "default" then []
  else
    let custom := if String.eqb error_detect "strict"
                  then "+crccheck+bitstream+buffer+explode"
                  else error_detect in
    [("err_detect", VStr custom); ("threads", VInt threads)].

Definition ffmpeg_check (filename error_detect : string) (threads : Z)
  : M unit :=
  let kwargs := ffmpeg_input_kwargs error_detect threads in
  (* stream.output('pipe:', format="null").run(...) *)
  call_ (EFfmpegRun filename kwargs) (ffmpeg_run W filename kwargs).

End Probes.

(** ** [check_file] *)

Definition any_Exception (c : exn_class) : bool := true.

(** The expression [CONFIG.zero_detect] on the module global [CONFIG],
    which is [None] until [main] has assigned it. *)
Definition CONFIG_zero_detect (g : Globals) : M Z :=
  match CONFIG g with
  | Some c => ret (zero_detect c)
  | None => raise (no_attribute "NoneType" "zero_detect")
  end.

Section CheckFile.

Variable g : Globals.
Variable W : World.

Definition get_extension (filename : string) : string :=
  let file_lowercase := lower filename in
  slice_from (snd (OsPath.splitext file_lowercase)) 1.

Definition is_target_file (filename : string) : bool :=
  let file_ext := get_extension filename in
  mem file_ext (MEDIA_EXTENSIONS g).

(** The statements of the [try] block that follow the assignment of
    [file_size]. *)
Definition check_file_probes (filename file_ext error_detect : string)
           (zero_detect ffmpeg_threads : Z) : M unit :=
  (if zero_detect >? 0 then
     threshold <- CONFIG_zero_detect g ;;
     check_zeros W filename (Some threshold) ;;
     ret tt
   else ret tt) ;;
  (if mem file_ext (PIL_EXTENSIONS g) then
     pil_check W filename ;;
     magick_check W filename true ;;
     magick_identify_check W filename
   else ret tt) ;;
  (if mem file_ext MAGICK_EXTENSIONS then
     magick_check W filename true ;;
     magick_identify_check W filename
   else ret tt) ;;
  (if mem file_ext VIDEO_EXTENSIONS then
     ffmpeg_check W filename error_detect ffmpeg_threads
   else ret tt).

(** The local [file_size] is ['NA'] until [check_size] has returned, so
    the handler sees ['NA'] for an exception of [check_size] and the size
    for any later one: the two nested handlers below are the one
    [except Exception] clause at these two values of the local. *)
Definition check_file (filename nominate_file_extension error_detect : string)
           (zero_detect ffmpeg_threads : Z) : M outcome :=
  let file_lowercase := lower filename in
  let file_ext :=
    if negb (String.eqb nominate_file_extension "")
    then nominate_file_extension
    else slice_from (snd (OsPath.splitext file_lowercase)) 1 in
  try_except
    (file_size <- check_size W filename true ;;
     try_except
       (check_file_probes filename file_ext error_detect
                          zero_detect ffmpeg_threads ;;
        ret (true, (filename, None, Bytes file_size)))
       any_Exception
       (fun e => ret (false, (filename, Some (str_exn e), Bytes file_size))))
    any_Exception
    (fun e => ret (false, (filename, Some (str_exn e), NA))).

End CheckFile.

(** The defaults of [check_file]'s optional parameters. *)
Definition default_zero_detect : Z := 0.
Definition default_ffmpeg_threads : Z := 0.

(** The call a [worker] makes for each task it takes from the queue; its
    [CONFIG] is the argument [main] passed to the process. *)
Definition worker_check (g : Globals) (W : World) (CONFIG : Config)
           (full_filename : string) : M outcome :=
  check_file g W full_filename "" (error_detect CONFIG)
             (zero_detect CONFIG) default_ffmpeg_threads.

(** ** State: objects and locals that are mutated

    [St S A] is a computation on a mutable state [S]: the state it leaves
    is there whether it returns or raises, as the attributes of an object
    and the locals of a function are in Python. *)

Definition St (S A : Type) : Type := S -> list event * (S * (exn + A)).

Definition sret {S A} (a : A) : St S A := fun s => ([], (s, inr a)).
Definition sraise {S A} (e : exn) : St S A := fun s => ([], (s, inl e)).
Definition get {S} : St S S := fun s => ([], (s, inr s)).
Definition put {S} (s' : S) : St S unit := fun _ => ([], (s', inr tt)).
Definition lift {S A} (m : M A) : St S A := fun s => (fst m, (s, snd m)).

Definition sbind {S A B} (m : St S A) (k : A -> St S B) : St S B :=
  fun s =>
    match m s with
    | (t, (s1, inl e)) => (t, (s1, inl e))
    | (t, (s1, inr a)) =>
        match k a s1 with
        | (t', r) => ((t ++ t')%list, r)
        end
    end.

Definition stry {S A} (m : St S A) (handles : exn_class -> bool)
           (handler : exn -> St S A) : St S A :=
  fun s =>
    match m s with
    | (t, (s1, inl e)) =>
        if handles (exn_cls e)
        then match handler e s1 with
             | (t', r) => ((t ++ t')%list, r)
             end
        else (t, (s1, inl e))
    | (t, (s1, inr a)) => (t, (s1, inr a))
    end.

Declare Scope st_scope.
Delimit Scope st_scope with st.
Notation "x <- m ;; k" := (sbind m (fun x => k))
  (at level 61, m at next level, right associativity) : st_scope.
Notation "m ;; k" := (sbind m (fun _ => k))
  (at level 61, right associativity) : st_scope.

(** ** [TimedLogger] *)

Record TimedLogger := {
  previous_time : Q;
  previous_size : Z;
  start_time : Q
}.

Module Logger.

Local Open Scope st_scope.

(** [__init__] *)
Definition init : TimedLogger :=
  {| previous_time := 0; previous_size := 0; start_time := 0 |}.

(** [start], where [now] is what [time.time()] returns. *)
Definition start (now : Q) (self : TimedLogger) : TimedLogger :=
  {| previous_time := now; previous_size := previous_size self;
     start_time := now |}.

Definition Qgtb (a b : Q) : bool := negb (Qle_bool a b).

(** [a / b] with a float divisor. *)
Definition truediv {S} (a b : Q) : St S Q :=
  if Qeq_bool b 0
  then sraise (Exn ZeroDivisionError [VStr "float division by zero"])
  else sret (a / b)%Q.

Definition MiB : Z := 1024 * 1024.

(** [print_log]; [now] is what [time.time()] returns when it is called. *)
Definition print_log (now : Q) (num_files num_bad_files total_file_size : Z)
           (wait_min_processed : Z) (force : bool) : St TimedLogger unit :=
  self <- get ;;
  if negb force &&
     (total_file_size - previous_size self <? wait_min_processed * MiB)
  then sret tt
  else
    let cur_time := now in
    let from_previous_delta := (cur_time - previous_time self)%Q in
    if Qgtb from_previous_delta (inject_Z UPDATE_SEC_INTERVAL) || force then
      put {| previous_time := cur_time;
             previous_size := total_file_size;
             start_time := start_time self |} ;;
      let from_start_delta := (cur_time - start_time self)%Q in
      speed_MB <- truediv (inject_Z total_file_size)
                          (inject_Z MiB * from_start_delta)%Q ;;
      speed_IS <- truediv (inject_Z num_files) from_start_delta ;;
      let processed_size_MB := (inject_Z total_file_size / inject_Z MiB)%Q in
      lift (emit (EPrintProgress num_bad_files num_files processed_size_MB)) ;;
      lift (emit (EPrintSpeed speed_MB speed_IS))
    else sret tt.

End Logger.

(** ** [main] *)

Definition nl : string := String (ascii_of_nat 10) EmptyString.

Definition value_of_error (e : option string) : value :=
  match e with
  | Some msg => VStr msg
  | None => VNone
  end.

Definition value_of_size (sz : file_size) : value :=
  match sz with
  | NA => VStr "NA"
  | Bytes n => VInt n
  end.

(** A Python tuple of printable values, as a list of its fields. *)
Definition tuple : Type := list value.

Definition tuple_of_detail (d : detail) : tuple :=
  let '(filename, error, size) := d in
  [VStr filename; value_of_error error; value_of_size size].

Definition log_check_outcome (check_outcome_detail : detail) : M unit :=
  let '(filename, error, size) := check_outcome_detail in
  emit (EPrint [VStr "Bad file:"; VStr filename; VStr ", error detail:";
                value_of_error error; VStr ", size[bytes]:";
                value_of_size size]).

(** [list(entry)] *)
Definition list_of_tuple (entry : tuple) : list value := entry.

(** [save_csv]: one [writerow(list(entry))] per entry of [data]. *)
Definition save_csv (W : World) (filename : string) (data : list tuple)
  : M unit :=
  match open_write W filename with
  | Some e => raise e
  | None => emit (EWriteCsv filename (map list_of_tuple data))
  end.

(** How [main] ends when no exception escapes it. *)
Inductive ending :=
| Returned
| Exited (status : Z).

(** The locals of [main] that the collector loop updates. *)
Record Locals := {
  count : Z;
  count_bad : Z;
  total_file_size : Z;
  bad_files_info : list tuple;
  timed_logger : TimedLogger
}.

Definition header : tuple :=
  [VStr "file_name"; VStr "error_message"; VStr "file_size[bytes]"].

Section Main.

Variable W : World.
Variable cfg : Config.          (* what [arg_parser()] returned *)

(** The globals once [main] has run [CONFIG = arg_parser()] and
    [setup(CONFIG)]. *)
Definition globals : Globals :=
  setup cfg {| PIL_EXTENSIONS := PIL_EXTENSIONS initial_globals;
               MEDIA_EXTENSIONS := MEDIA_EXTENSIONS initial_globals;
               CONFIG := Some cfg |}.

Definition banner : M unit :=
  if negb (pil_simd W) then
    emit (EPrint [VStr "********WARNING*******************************************************"]) ;;
    emit (EPrint [VStr "You are using Python Pillow PIL module and not the Pillow-SIMD module."]) ;;
    emit (EPrint [VStr "Pillow-SIMD is a 4x faster drop-in replacement of the base PIL module."]) ;;
    emit (EPrint [VStr "Uninstalling Pillow PIL and installing Pillow-SIMD is a good idea."]) ;;
    emit (EPrint [VStr "**********************************************************************"])
  else ret tt.

(** The single file check. *)
Definition main_single (check_path : string) : M ending :=
  is_success <- check_file globals W check_path "" (error_detect cfg)
                           default_zero_detect default_ffmpeg_threads ;;
  if negb (fst is_success) then
    let check_outcome_detail := snd is_success in
    log_check_outcome check_outcome_detail ;;
    ret (Exited 1)
  else
    emit (EPrint [VStr "File"; VStr check_path; VStr "is OK"]) ;;
    ret (Exited 0).

(** The thumbnail check of one directory. *)
Definition thumb_check (root : string) : M unit :=
  let thumb := root ++ "/" ++ ".thumb" in
  emit (EPathExists thumb) ;;
  if os_path_exists W thumb then
    try_except (pil_check W thumb) any_Exception
      (fun _ =>
         emit (EPrint [VStr ("Removing thumbnail: " ++ thumb)]) ;;
         call_ (ERemove thumb) (os_remove W thumb))
  else ret tt.

(** The loop over [os.walk(check_path)]: it returns [pre_count] and the
    file names put on [task_queue], in order. *)
Fixpoint scan (walk : list (string * list string)) (pre_count : Z)
         (task_queue : list string) : M (Z * list string) :=
  match walk with
  | [] => ret (pre_count, task_queue)
  | (root, files) :: walk' =>
      let media_files := filter (is_target_file globals) files in
      thumb_check root ;;
      let pre_count := pre_count + Z.of_nat (List.length media_files) in
      let task_queue :=
        (task_queue ++ map (OsPath.join root) media_files)%list in
      if negb (is_recurse cfg)
      then ret (pre_count, task_queue)   (* we only check the root folder *)
      else scan walk' pre_count task_queue
  end.

Local Open Scope st_scope.

Definition with_logger {A} (m : St TimedLogger A) : St Locals A :=
  fun s =>
    match m (timed_logger s) with
    | (t, (l, r)) =>
        (t, ({| count := count s; count_bad := count_bad s;
                total_file_size := total_file_size s;
                bad_files_info := bad_files_info s;
                timed_logger := l |}, r))
    end.

Definition modify (f : Locals -> Locals) : St Locals unit :=
  fun s => ([], (f s, inr tt)).

(** Turn [j] of [for j in range(pre_count)]. *)
Definition collect_body (j : nat) : St Locals unit :=
  modify (fun s =>
    {| count := count s + 1; count_bad := count_bad s;
       total_file_size := total_file_size s;
       bad_files_info := bad_files_info s;
       timed_logger := timed_logger s |}) ;;
  is_success <- match out_queue_get W j with
                | Some o => sret o
                | None => sraise (Exn Empty [])
                end ;;
  let file_size := snd (snd is_success) in
  match file_size with
  | Bytes n =>
      modify (fun s =>
        {| count := count s; count_bad := count_bad s;
           total_file_size := total_file_size s + n;
           bad_files_info := bad_files_info s;
           timed_logger := timed_logger s |})
  | NA => sret tt
  end ;;
  (if negb (fst is_success) then
     let check_outcome_detail := snd is_success in
     modify (fun s =>
       {| count := count s; count_bad := count_bad s + 1;
          total_file_size := total_file_size s;
          bad_files_info :=
            (bad_files_info s ++ [tuple_of_detail check_outcome_detail])%list;
          timed_logger := timed_logger s |}) ;;
     lift (log_check_outcome check_outcome_detail)
   else sret tt) ;;
  (* visualization logs and stats *)
  s <- get ;;
  with_logger (Logger.print_log (time_time W (S j)) (count s) (count_bad s)
                                (total_file_size s) UPDATE_MB_INTERVAL false).

Fixpoint collect_loop (turns j : nat) : St Locals unit :=
  match turns with
  | O => sret tt
  | S turns' => collect_body j ;; collect_loop turns' (S j)
  end.

(** [e.message] for the [Empty] the handler has caught: in Python 3 an
    instance of [queue.Empty] has no such attribute. *)
Definition getattr_message (e : exn) : M value :=
  raise (no_attribute (class_name (exn_cls e)) "message").

(** The end of [main], from [print("\n**Task completed**\n")] on. *)
Definition final_report (pre_count : Z) : St Locals ending :=
  lift (emit (EPrint [VStr (nl ++ "**Task completed**" ++ nl)])) ;;
  s <- get ;;
  with_logger (Logger.print_log (time_time W (S (Z.to_nat pre_count)))
                                (count s) (count_bad s) (total_file_size s)
                                UPDATE_MB_INTERVAL true) ;;
  s <- get ;;
  (if (count_bad s >? 0) && enable_csv cfg then
     match csv_filename cfg with
     | Some csv =>
         lift (emit (EPrint [VStr (nl ++ "Save details for bad files in CSV format, file path:");
                             VStr csv])) ;;
         lift (save_csv W csv (bad_files_info s))
     | None => sret tt
     end
   else sret tt) ;;
  (if count_bad s =? 0
   then lift (emit (EPrint [VStr "The files are OK :-)"]))
   else lift (emit (EPrint [VStr "Few files look damaged :-("]))) ;;
  sret Returned.

(** From [# consume the outcome] to the end of [main]: the [try]
    statement around the collector loop, then the final report. *)
Definition consume (pre_count : Z) : St Locals ending :=
  stry (collect_loop (Z.to_nat pre_count) 0)
       is_Empty
       (fun e =>
          message <- lift (getattr_message e) ;;
          lift (emit (EPrint [VStr "Waiting other results for too much time, perhaps you have to raise the timeout";
                              message]))) ;;
  final_report pre_count.

(** The locals as initialised under [# initializations]. *)
Definition initial_locals : Locals :=
  {| count := 0; count_bad := 0; total_file_size := 0;
     bad_files_info := [header];
     timed_logger := Logger.start (time_time W 0) Logger.init |}.

(** The folder check.  Starting the [CONFIG.threads] worker processes
    leaves no event here: what they do reaches [main] through
    [out_queue_get]. *)
Definition main_folder (check_path : string) : St Locals ending :=
  scanned <- lift (scan (os_walk W check_path) 0 []) ;;
  let pre_count := fst scanned in
  consume pre_count.

Definition main : list event * (exn + ending) :=
  let check_path := checkpath cfg in
  let prologue :=
    (banner ;; emit (EPrint [VStr "Files integrity check for:";
                             VStr check_path]))%py in
  match prologue with
  | (t0, _) =>
      if os_path_isfile W check_path then
        match main_single check_path with
        | (t, r) => ((t0 ++ t)%list, r)
        end
      else
        match main_folder check_path initial_locals with
        | (t, (_, r)) => ((t0 ++ t)%list, r)
        end
  end.

End Main.

(** ** Concrete worlds for the examples *)

Module Sample.

(** A world where every decoder accepts every file; sizes, contents and
    the collector's queue are given. *)
Definition world (size : string -> exn + Z)
           (content : string -> exn + list byte)
           (walk : string -> list (string * list string))
           (clock : nat -> Q)
           (queue : nat -> option outcome) : World :=
  {| os_stat_size := size;
     file_read := content;
     pil_verify := fun _ => None;
     pil_transpose := fun _ => None;
     wand_image := fun _ => None;
     wand_make_blob := fun _ => None;
     magick_identify := fun _ => inr 0;
     ffmpeg_run := fun _ _ => None;
     os_path_isfile := fun p => negb (String.eqb p "media");
     os_path_exists := fun _ => false;
     os_remove := fun _ => None;
     os_walk := walk;
     pil_simd := true;
     open_write := fun _ => None;
     time_time := clock;
     out_queue_get := queue |}.

Definition config (path : string) (csv : option string) (z : Z)
           (media : bool) : Config :=
  {| checkpath := path; csv_filename := csv; is_recurse := false;
     zero_detect := z; is_disable_image := false; is_enable_media := media;
     is_disable_extra := false; error_detect := "default";
     threads := 2; timeout := 120 |}.

Definition no_walk : string -> list (string * list string) := fun _ => [].
Definition no_queue : nat -> option outcome := fun _ => None.
Definition seconds : nat -> Q := fun n => inject_Z (Z.of_nat n).

(** Every file is empty. *)
Definition empty_files : World :=
  world (fun _ => inr 0) (fun _ => inr []) no_walk seconds no_queue.

(** Every file holds the five bytes [07 07 00 00 00]. *)
Definition five_bytes : list byte := [x07; x07; x00; x00; x00]%byte.
Definition small_files : World :=
  world (fun _ => inr 5) (fun _ => inr five_bytes) no_walk seconds no_queue.

(** A folder [media] with two pictures; the first one's outcome, a
    failure, reaches the collector, the second one's never does. *)
Definition first_outcome : outcome :=
  (false, ("media/a.jpg", Some "Zero size file", NA)).
Definition stalled : World :=
  world (fun _ => inr 5) (fun _ => inr five_bytes)
        (fun _ => [("media", ["a.jpg"; "b.jpg"])]) seconds
        (fun j => match j with O => Some first_outcome | _ => None end).

(** The same folder when both outcomes arrive, the second a success and
    the first a failure. *)
Definition second_outcome : outcome := (true, ("media/b.jpg", None, Bytes 5)).
Definition prompt : World :=
  world (fun _ => inr 5) (fun _ => inr five_bytes)
        (fun _ => [("media", ["a.jpg"; "b.jpg"])]) seconds
        (fun j => match j with
                  | O => Some first_outcome
                  | _ => Some second_outcome
                  end).

End Sample.

(** ** Vocabulary of the properties *)

(** The size field that the outcome of [check_file] holds, as a function
    of what [os.stat] did. *)
Definition recorded_size (W : World) (filename : string) : file_size :=
  match os_stat_size W filename with
  | inr n => if n =? 0 then NA else Bytes n
  | inl _ => NA
  end.

(** The events of the zero-run probe: it is the only reader of a file's
    bytes. *)
Definition is_zero_run_event (ev : event) : bool :=
  match ev with
  | EReadFile _ => true
  | _ => false
  end.

(** A file holds a run of [n] equal bytes. *)
Definition has_run (thefilearray : list byte) (n : nat) : Prop :=
  exists before b after,
    thefilearray = (before ++ repeat b n ++ after)%list.

(** The longest run seen so far: the finished ones and the current one. *)
Definition longest_so_far (s : zeros_state) : Z := Z.max (maxnum s) (num s).

(** The message of the exception [check_zeros] raises. *)
Definition zero_run_message (v : value) (len : Z) : string :=
  str_exn (Exn Exception [VStr "Equal value sequence, value:"; v;
                          VStr "len:"; VInt len]).

(** The character [c] occurs in [s]. *)
Fixpoint occurs (c : ascii) (s : string) : Prop :=
  match s with
  | EmptyString => False
  | String a s' => a = c \/ occurs c s'
  end.

(** [s] is made of dots only (the empty string is). *)
Fixpoint all_dots (s : string) : bool :=
  match s with
  | EmptyString => true
  | String a s' => Ascii.eqb a OsPath.extsep && all_dots s'
  end.

(** A call of [print_log] printed its progress lines. *)
Definition emitted {S A} (r : list event * (S * (exn + A))) : bool :=
  match fst r with
  | [EPrintProgress _ _ _; EPrintSpeed _ _] => true
  | _ => false
  end.

(** The outcomes the collector receives from turn [j] on, in order. *)
Fixpoint got (W : World) (j : nat) (received : list outcome) : Prop :=
  match received with
  | [] => True
  | o :: received' =>
      out_queue_get W j = Some o /\ got W (S j) received'
  end.

Definition failed (o : outcome) : bool := negb (fst o).

(** The details of the failed outcomes, in the order received. *)
Definition failures (received : list outcome) : list detail :=
  map snd (filter failed received).

(** The sum of the sizes that are known. *)
Fixpoint known_bytes (received : list outcome) : Z :=
  match received with
  | [] => 0
  | o :: received' =>
      match snd (snd o) with
      | Bytes n => n + known_bytes received'
      | NA => known_bytes received'
      end
  end.

(** The locals after one more outcome [o], with the logger left as [l]. *)
Definition absorb (o : outcome) (s : Locals) (l : TimedLogger) : Locals :=
  {| count := count s + 1;
     count_bad := if fst o then count_bad s else count_bad s + 1;
     total_file_size := match snd (snd o) with
                        | Bytes n => total_file_size s + n
                        | NA => total_file_size s
                        end;
     bad_files_info := if fst o then bad_files_info s
                       else (bad_files_info s ++ [tuple_of_detail (snd o)])%list;
     timed_logger := l |}.

(** The events of [save_csv]. *)
Definition is_report_event (ev : event) : bool :=
  match ev with
  | EWriteCsv _ _ => true
  | _ => false
  end.

(** No event of the kind [P] happens in [t]. *)
Definition lacks (P : event -> bool) (t : list event) : Prop :=
  Forall (fun ev => P ev = false) t.

(** A run in which the zero-run probe never executes. *)
Definition no_zero_run (t : list event) : Prop := lacks is_zero_run_event t.

(** ** The worker loop *)

(** [worker].  [in_queue] lists what the successive
    [in_queue.get(block=True, timeout=2)] of this worker return before the
    one that times out and raises [Empty]; the state is what the worker
    has put on [out_queue] so far, in order.  Both [except] clauses belong
    to the one [try] statement around the loop. *)
Fixpoint worker_loop (g : Globals) (W : World) (CONFIG : Config)
         (in_queue : list string) : St (list outcome) unit :=
  match in_queue with
  | [] => sraise (Exn Empty [])
  | full_filename :: in_queue' =>
      (is_success <- lift (worker_check g W CONFIG full_filename) ;;
       out_queue <- get ;;
       put (out_queue ++ [is_success])%list ;;
       worker_loop g W CONFIG in_queue')%st
  end.

Definition worker (g : Globals) (W : World) (CONFIG : Config)
           (in_queue : list string) : St (list outcome) ending :=
  stry (worker_loop g W CONFIG in_queue ;; sret Returned)%st
       any_Exception
       (fun e =>
          if is_Empty (exn_cls e) then
            (lift (emit (EPrint [VStr "Closing parallel worker, the worker has no more tasks to perform"])) ;;
             sret Returned)%st
          else
            (lift (emit (EPrint [VStr "Parallel worker got unexpected error";
                                 VStr (str_exn e)])) ;;
             sret (Exited 1))%st).

(** ** Further vocabulary *)

(** [CONFIG.zero_detect] of a configuration. *)
Definition configured_threshold (c : Config) : Z := zero_detect c.

(** The extension [check_file] dispatches on. *)
Definition file_ext_of (filename nominate_file_extension : string) : string :=
  if negb (String.eqb nominate_file_extension "")
  then nominate_file_extension
  else slice_from (snd (OsPath.splitext (lower filename))) 1.

(** The calls of the probes, as opposed to printing, walking, removing
    and writing. *)
Definition is_probe_event (ev : event) : bool :=
  match ev with
  | EStat _ | EReadFile _ | EPilVerify _ | EPilTranspose _ | EWandImage _
  | EWandMakeBlob _ | EMagickIdentify _ | EFfmpegRun _ _ => true
  | _ => false
  end.

Definition is_print_event (ev : event) : bool :=
  match ev with
  | EPrint _ | EPrintProgress _ _ _ | EPrintSpeed _ _ => true
  | _ => false
  end.

(** Everything the probes of [check_file] must find for the outcome to
    be a success: a size other than 0, no run as long as the configured
    threshold when the zero-run probe is on, and no complaint of any
    decoder of the lists the extension is in. *)
Definition probes_pass (g : Globals) (W : World)
           (filename file_ext error_detect : string)
           (zero_detect ffmpeg_threads : Z) (size : Z) : Prop :=
  os_stat_size W filename = inr size /\ size <> 0 /\
  (0 < zero_detect ->
   exists c thefilearray,
     CONFIG g = Some c /\ file_read W filename = inr thefilearray /\
     maxnum (zeros_scan thefilearray) < configured_threshold c) /\
  (mem file_ext (PIL_EXTENSIONS g) = true ->
   pil_verify W filename = None /\ pil_transpose W filename = None) /\
  (mem file_ext (PIL_EXTENSIONS g) = true \/
   mem file_ext MAGICK_EXTENSIONS = true ->
   wand_image W filename = None /\ magick_identify W filename = inr 0) /\
  (mem file_ext VIDEO_EXTENSIONS = true ->
   ffmpeg_run W filename (ffmpeg_input_kwargs error_detect ffmpeg_threads)
   = None).

(** What the locals of the scanning loop say about the bytes read so
    far: [num] is the length of the run of [prev] that ends them, and a
    run of [maxnum] bytes occurs in them. *)
Definition scanned (p : list byte) (s : zeros_state) : Prop :=
  1 <= num s /\ 1 <= maxnum s /\
  exists before b,
    p = (before ++ repeat b (Z.to_nat (num s)))%list /\
    prev s = Some b /\
    has_run p (Z.to_nat (maxnum s)).

(** The line the single file check ends with. *)
Definition verdict_line (check_path : string) (o : outcome) : event :=
  if fst o
  then EPrint [VStr "File"; VStr check_path; VStr "is OK"]
  else EPrint [VStr "Bad file:"; VStr (fst (fst (snd o)));
               VStr ", error detail:"; value_of_error (snd (fst (snd o)));
               VStr ", size[bytes]:"; value_of_size (snd (snd o))].

(** The logger once it has printed at time [now] with [total] bytes. *)
Definition logger_after (self : TimedLogger) (now : Q) (total : Z)
  : TimedLogger :=
  {| previous_time := now; previous_size := total;
     start_time := start_time self |}.

(** The path an outcome is about. *)
Definition outcome_path (o : outcome) : string := fst (fst (snd o)).

Definition closing_line : event :=
  EPrint [VStr "Closing parallel worker, the worker has no more tasks to perform"].



(** What the output queue delivers to [turns] successive waits from wait
    [j] on, up to the first wait that times out. *)
Fixpoint arrivals (W : World) (turns j : nat) : list outcome :=
  match turns with
  | O => []
  | S turns' =>
      match out_queue_get W j with
      | Some o => o :: arrivals W turns' (S j)
      | None => []
      end
  end.


(** The paths [scan] queues for the directories it visits, in order. *)
Definition queued (g : Globals) (walk : list (string * list string))
  : list string :=
  flat_map (fun entry =>
              map (OsPath.join (fst entry))
                  (filter (is_target_file g) (snd entry)))
           walk.

(** The directories of the walk that [scan] looks at. *)
Definition visited (cfg : Config) (walk : list (string * list string))
  : list (string * list string) :=
  if is_recurse cfg then walk else firstn 1 walk.

Definition thumb_of (root : string) : string := root ++ "/" ++ ".thumb".

(** The allow-list as the options describe it. *)
Definition enabled_extension (cfg : Config) (ext : string) : Prop :=
  (is_disable_image cfg = false /\
   (In ext PIL_EXTENSIONS_0 \/
    (is_disable_extra cfg = false /\
     (In ext PIL_EXTRA_EXTENSIONS \/ In ext MAGICK_EXTENSIONS)))) \/
  (is_enable_media cfg = true /\
   (In ext VIDEO_EXTENSIONS \/ In ext AUDIO_EXTENSIONS)).

(** * Properties *)

(** ** The monads *)

Lemma trace_bind {A B} (m : M A) (k : A -> M B) :
  trace (bind m k) =
  match result m with
  | inl _ => trace m
  | inr a => (trace m ++ trace (k a))%list
  end.
Proof.
  destruct m as [t [e | a]]; simpl; [reflexivity |].
  destruct (k a); reflexivity.
Qed.

Lemma result_bind {A B} (m : M A) (k : A -> M B) :
  result (bind m k) =
  match result m with
  | inl e => inl e
  | inr a => result (k a)
  end.
Proof.
  destruct m as [t [e | a]]; simpl; [reflexivity |].
  destruct (k a); reflexivity.
Qed.

(** A handler for every exception that itself returns makes the whole
    [try] statement return. *)
Lemma try_except_returns {A} (m : M A) (h : exn -> A) :
  exists a,
    result (try_except m any_Exception (fun e => ret (h e))) = inr a /\
    (a = match result m with inl e => h e | inr x => x end) /\
    trace (try_except m any_Exception (fun e => ret (h e))) = trace m.
Proof.
  destruct m as [t [e | a]]; simpl.
  - exists (h e). rewrite app_nil_r. auto.
  - exists a. auto.
Qed.

(** ** The size probe *)

(** C3.  A file whose size is 0 makes [check_file] return the failure
    outcome with the message ["Zero size file"], whatever the extension,
    the globals and the other arguments are; the only thing done to the
    file is the [os.stat] of the size probe, no later probe runs. *)
Theorem check_file_zero_size (g : Globals) (W : World)
        (filename nominate_file_extension error_detect : string)
        (zero_detect ffmpeg_threads : Z) :
  os_stat_size W filename = inr 0 ->
  check_file g W filename nominate_file_extension error_detect
             zero_detect ffmpeg_threads =
  ([EStat filename], inr (false, (filename, Some "Zero size file", NA))).
Proof.
  intros Hstat. unfold check_file, check_size, call.
  cbn. rewrite Hstat. reflexivity.
Qed.

(** C4 (amended).  [check_file] always returns an outcome for the file
    it was given; the outcome carries the size [os.stat] reported when
    that size is not 0, whether the later probes pass or fail, and it
    carries ['NA'] when [os.stat] raises and also when the size is 0. *)
Theorem check_file_size_field (g : Globals) (W : World)
        (filename nominate_file_extension error_detect : string)
        (zero_detect ffmpeg_threads : Z) :
  exists ok error,
    result (check_file g W filename nominate_file_extension error_detect
                       zero_detect ffmpeg_threads) =
    inr (ok, (filename, error, recorded_size W filename)).
Proof.
  unfold check_file, recorded_size.
  match goal with
  | |- context [check_file_probes ?a1 ?a2 ?a3 ?a4 ?a5 ?a6 ?a7] =>
      generalize (check_file_probes a1 a2 a3 a4 a5 a6 a7)
  end.
  intros probes. unfold check_size, call.
  destruct (os_stat_size W filename) as [e | n].
  - cbn. eauto.
  - destruct (n =? 0) eqn:Hn.
    + cbn. rewrite Hn. cbn. eauto.
    + destruct probes as [t [e | []]]; cbn; rewrite Hn; cbn; eauto.
Qed.

(** The instance of C3 at an empty file named like a video. *)
Lemma check_file_zero_size_witness :
  os_stat_size Sample.empty_files "clip.mkv" = inr 0 /\
  check_file initial_globals Sample.empty_files "clip.mkv" "" "strict" 8 0 =
  ([EStat "clip.mkv"], inr (false, ("clip.mkv", Some "Zero size file", NA))).
Proof.
  split; [reflexivity |].
  apply (check_file_zero_size initial_globals Sample.empty_files
                              "clip.mkv" "" "strict" 8 0).
  reflexivity.
Defined.

(** C4 as stated fails on an empty file: [os.stat] succeeds and reports
    size 0, yet the outcome carries ['NA'] and not the size. *)
Lemma check_file_size_unknown_though_stat_ok :
  os_stat_size Sample.empty_files "empty.jpg" = inr 0 /\
  result (check_file initial_globals Sample.empty_files "empty.jpg" ""
                     "default" 0 0) =
  inr (false, ("empty.jpg", Some "Zero size file", NA)).
Proof. split; reflexivity. Qed.

(** ** The audio and video probe *)

(** The flags [ffmpeg_check] passes on for each error detection mode. *)
Lemma ffmpeg_input_kwargs_modes (threads : Z) :
  ffmpeg_input_kwargs "default" threads = [] /\
  ffmpeg_input_kwargs "strict" threads =
    [("err_detect", VStr "+crccheck+bitstream+buffer+explode");
     ("threads", VInt threads)] /\
  forall raw, raw <> "default" -> raw <> "strict" ->
    ffmpeg_input_kwargs raw threads =
      [("err_detect", VStr raw); ("threads", VInt threads)].
Proof.
  repeat split. intros raw Hd Hs. unfold ffmpeg_input_kwargs.
  apply String.eqb_neq in Hd, Hs. rewrite Hd, Hs. reflexivity.
Qed.

Lemma mem_In (x : string) (l : list string) : mem x l = true <-> In x l.
Proof.
  unfold mem. rewrite existsb_exists. split.
  - intros [y [Hin Heq]]. apply String.eqb_eq in Heq. now subst.
  - intros Hin. exists x. split; [assumption | apply String.eqb_refl].
Qed.

(** A file with a video extension, a size that is not 0 and no zero-run
    check has its size read and is then handed to ffmpeg with the flags
    of the error detection mode. *)
Lemma video_file_runs_ffmpeg (W : World) (cfg : Config)
      (filename ext error_detect : string) (zero_detect threads n : Z) :
  os_stat_size W filename = inr n -> n <> 0 -> zero_detect <= 0 ->
  In ext VIDEO_EXTENSIONS ->
  trace (check_file (globals cfg) W filename ext error_detect
                    zero_detect threads) =
  [EStat filename;
   EFfmpegRun filename (ffmpeg_input_kwargs error_detect threads)].
Proof.
  intros Hstat Hn Hz Hin.
  assert (Hzd : (zero_detect >? 0) = false) by lia.
  apply Z.eqb_neq in Hn.
  unfold check_file, check_file_probes, check_size, call, ffmpeg_check, call_.
  unfold globals, setup; cbn [PIL_EXTENSIONS MEDIA_EXTENSIONS CONFIG
                               initial_globals].
  rewrite Hzd, Hstat.
  simpl in Hin.
  destruct (is_disable_extra cfg);
    repeat (destruct Hin as [<- | Hin]; [cbn; rewrite Hn; cbn;
      destruct (ffmpeg_run W filename _); reflexivity |]);
    contradiction.
Qed.

(** C5 (the code at an audio file).  With audio and video enabled the
    scanner takes [song.mp3], an [AUDIO_EXTENSIONS] name, as a target;
    the worker's check of it stats the file and reports success without
    ever running ffmpeg: [check_file] tests [VIDEO_EXTENSIONS] only. *)
Theorem audio_file_never_reaches_ffmpeg :
  let cfg := Sample.config "media" None 0 true in
  In "mp3" AUDIO_EXTENSIONS /\
  is_target_file (globals cfg) "song.mp3" = true /\
  worker_check (globals cfg) Sample.small_files cfg "media/song.mp3" =
  ([EStat "media/song.mp3"],
   inr (true, ("media/song.mp3", None, Bytes 5))).
Proof.
  cbv zeta. split; [simpl; auto |]. split; reflexivity.
Qed.

(** ** The zero-run probe *)

Lemma zeros_step_longest (s : zeros_state) (i : byte) :
  longest_so_far s <= longest_so_far (zeros_step s i).
Proof.
  unfold longest_so_far, zeros_step.
  destruct (same_byte (prev s) i); cbn.
  - lia.
  - destruct (num s >? maxnum s) eqn:Hgt; cbn; lia.
Qed.

Lemma zeros_fold_longest (l : list byte) (s : zeros_state) :
  longest_so_far s <= longest_so_far (fold_left zeros_step l s).
Proof.
  revert s. induction l as [| i l IH]; intros s; cbn.
  - lia.
  - pose proof (zeros_step_longest s i). pose proof (IH (zeros_step s i)). lia.
Qed.

Lemma zeros_finish_maxnum (s : zeros_state) :
  maxnum (zeros_finish s) = longest_so_far s.
Proof.
  unfold zeros_finish, longest_so_far.
  destruct (num s >? maxnum s) eqn:Hgt; cbn; lia.
Qed.

Lemma same_byte_refl (b : byte) : same_byte (Some b) b = true.
Proof. cbn. now apply Byte.byte_dec_lb. Qed.

Lemma zeros_step_current (s : zeros_state) (i : byte) :
  1 <= num s ->
  prev (zeros_step s i) = Some i /\ 1 <= num (zeros_step s i).
Proof.
  intros Hpos. unfold zeros_step.
  destruct (same_byte (prev s) i) eqn:Hs; cbn.
  - split; [| lia].
    destruct (prev s) as [p |]; cbn in Hs; [| discriminate].
    apply Byte.byte_dec_bl in Hs. now subst.
  - destruct (num s >? maxnum s); cbn; split; auto; lia.
Qed.

Lemma zeros_fold_num_pos (l : list byte) (s : zeros_state) :
  1 <= num s -> 1 <= num (fold_left zeros_step l s).
Proof.
  revert s. induction l as [| i l IH]; intros s Hpos; cbn; [assumption |].
  apply IH. now apply zeros_step_current.
Qed.

(** Reading [n] more copies of the current value lengthens the current
    run by [n]. *)
Lemma zeros_fold_same (b : byte) (n : nat) (s : zeros_state) (k : Z) :
  prev s = Some b -> k <= num s ->
  prev (fold_left zeros_step (repeat b n) s) = Some b /\
  k + Z.of_nat n <= num (fold_left zeros_step (repeat b n) s).
Proof.
  revert s k. induction n as [| n IH]; intros s k Hprev Hk.
  - cbn. split; [assumption | lia].
  - cbn [repeat fold_left].
    assert (Hstep : zeros_step s b =
                    {| num := num s + 1; maxnum := maxnum s;
                       prev := prev s; maxprev := maxprev s |}).
    { unfold zeros_step. rewrite Hprev, same_byte_refl. reflexivity. }
    rewrite Hstep.
    destruct (IH {| num := num s + 1; maxnum := maxnum s;
                    prev := prev s; maxprev := maxprev s |} (k + 1))
      as [Hp Hn]; cbn; [assumption | lia |].
    split; [exact Hp | lia].
Qed.

(** The scan finds every run: [maxnum] is at least the length of any run
    of equal bytes in the file. *)
Lemma zeros_scan_detects (thefilearray : list byte) (n : nat) :
  has_run thefilearray n -> (1 <= n)%nat ->
  Z.of_nat n <= maxnum (zeros_scan thefilearray).
Proof.
  intros (before & b & after & ->) Hn.
  destruct n as [| m]; [lia |].
  unfold zeros_scan. rewrite zeros_finish_maxnum.
  rewrite !fold_left_app. cbn [repeat fold_left].
  set (s1 := fold_left zeros_step before zeros_init).
  assert (H1 : 1 <= num s1) by (apply zeros_fold_num_pos; cbn; lia).
  destruct (zeros_step_current s1 b H1) as [Hp2 Hn2].
  destruct (zeros_fold_same b m (zeros_step s1 b) 1 Hp2 Hn2) as [_ Hn3].
  pose proof (zeros_fold_longest after
                (fold_left zeros_step (repeat b m) (zeros_step s1 b))) as Hl.
  unfold longest_so_far in Hl at 1. lia.
Qed.

(** X9.  With a threshold above 0 passed and configured, a file that holds a
    run of at least that many equal bytes gets a failure outcome with the
    message of the zero-run probe, a run length at least the threshold
    and the file's size, whatever the extension is. *)
Lemma check_file_zero_run_fails (g : Globals) (W : World) (c : Config)
      (filename ext error_detect : string) (threads size : Z)
      (thefilearray : list byte) (n : nat) :
  CONFIG g = Some c -> 0 < zero_detect c ->
  os_stat_size W filename = inr size -> size <> 0 ->
  file_read W filename = inr thefilearray ->
  has_run thefilearray n -> zero_detect c <= Z.of_nat n ->
  exists v len,
    zero_detect c <= len /\
    check_file g W filename ext error_detect (zero_detect c) threads =
    ([EStat filename; EReadFile filename],
     inr (false, (filename, Some (zero_run_message v len), Bytes size))).
Proof.
  intros Hcfg Hpos Hstat Hsize Hread Hrun Hlen.
  assert (Hmax : zero_detect c <= maxnum (zeros_scan thefilearray)).
  { pose proof (zeros_scan_detects thefilearray n Hrun). lia. }
  exists (value_of_byte (maxprev (zeros_scan thefilearray))),
         (maxnum (zeros_scan thefilearray)).
  split; [assumption |].
  apply Z.eqb_neq in Hsize.
  assert (Hgt : (zero_detect c >? 0) = true) by lia.
  assert (Hge : (maxnum (zeros_scan thefilearray) >=? zero_detect c) = true)
    by lia.
  unfold check_file, check_file_probes, check_size, check_zeros,
         CONFIG_zero_detect, call.
  rewrite Hgt, Hcfg, Hstat, Hread. cbn. rewrite Hsize. cbn.
  rewrite Hge. reflexivity.
Qed.

(** C6 (the code at a file whose longest run comes last).  The file
    holds [07 07 00 00 00] and the threshold is 3: the run of three 00
    bytes is found and its length is reported, but the value reported
    with it is 7, the value of the earlier and shorter run, because the
    update after the loop sets [maxnum] and leaves [maxprev] as it was. *)
Theorem zero_run_reports_earlier_value :
  let cfg := Sample.config "media" None 3 false in
  zeros_scan Sample.five_bytes =
    {| num := 3; maxnum := 3;
       prev := Some x00%byte; maxprev := Some x07%byte |} /\
  worker_check (globals cfg) Sample.small_files cfg "media/scan.bin" =
  ([EStat "media/scan.bin"; EReadFile "media/scan.bin"],
   inr (false, ("media/scan.bin",
                Some "('Equal value sequence, value:', 7, 'len:', 3)",
                Bytes 5))).
Proof.
  cbv zeta. split; reflexivity.
Qed.

(** ** The single file check *)

Section Lacks.

Variable P : event -> bool.

Lemma lacks_bind {A B} (m : M A) (k : A -> M B) :
  lacks P (trace m) -> (forall a, lacks P (trace (k a))) ->
  lacks P (trace (bind m k)).
Proof.
  intros Hm Hk. rewrite trace_bind.
  destruct (result m) as [e | a]; [assumption |].
  apply Forall_app. split; [assumption | apply Hk].
Qed.

Lemma lacks_try {A} (m : M A) (handles : exn_class -> bool)
      (handler : exn -> M A) :
  lacks P (trace m) -> (forall e, lacks P (trace (handler e))) ->
  lacks P (trace (try_except m handles handler)).
Proof.
  intros Hm Hh. destruct m as [t [e | a]]; cbn in *; [| assumption].
  destruct (handles (exn_cls e)); [| assumption].
  specialize (Hh e). destruct (handler e) as [t' r]. cbn in *.
  apply Forall_app. now split.
Qed.

Lemma lacks_one {A} (ev : event) (r : exn + A) :
  P ev = false -> lacks P (trace ((([ev], r)) : M A)).
Proof. intros H. cbn. constructor; [assumption | constructor]. Qed.

Lemma lacks_nil {A} (r : exn + A) : lacks P (trace (([], r) : M A)).
Proof. constructor. Qed.

End Lacks.

(** Walks through binds, handlers and tests; leaves the calls of other
    functions to the caller. *)
Ltac quiet :=
  repeat first
    [ apply lacks_bind; [| intros ?]
    | apply lacks_try; [| intros ?]
    | match goal with
      | |- lacks _ (trace (if ?b then _ else _)) => destruct b
      | |- lacks _ (trace (match ?x with Some _ => _ | None => _ end)) =>
          destruct x
      end
    | (apply lacks_one; reflexivity)
    | apply lacks_nil ].

Lemma pil_check_no_zero_run (W : World) (filename : string) :
  no_zero_run (trace (pil_check W filename)).
Proof. unfold no_zero_run, pil_check, call_. quiet. Qed.

Lemma magick_check_no_zero_run (W : World) (filename : string) (flip : bool) :
  no_zero_run (trace (magick_check W filename flip)).
Proof. unfold no_zero_run, magick_check, call_, ret, raise. quiet. Qed.

Lemma magick_identify_check_no_zero_run (W : World) (filename : string) :
  no_zero_run (trace (magick_identify_check W filename)).
Proof. unfold no_zero_run, magick_identify_check, call, ret, raise. quiet. Qed.

Lemma ffmpeg_check_no_zero_run (W : World) (filename ed : string) (th : Z) :
  no_zero_run (trace (ffmpeg_check W filename ed th)).
Proof. unfold no_zero_run, ffmpeg_check, call_. quiet. Qed.

(** Without a threshold above 0 [check_file] does not read the file's
    bytes: it runs the size probe and the probes of the extension. *)
Lemma check_file_no_zero_run (g : Globals) (W : World)
      (filename ext ed : string) (zero_detect threads : Z) :
  zero_detect <= 0 ->
  no_zero_run (trace (check_file g W filename ext ed zero_detect threads)).
Proof.
  intros Hz. assert (Hzd : (zero_detect >? 0) = false) by lia.
  unfold no_zero_run, check_file, check_file_probes. rewrite Hzd.
  unfold check_size, call, ret, raise.
  quiet;
    auto using pil_check_no_zero_run, magick_check_no_zero_run,
               magick_identify_check_no_zero_run, ffmpeg_check_no_zero_run.
Qed.

(** C10.  When the path given is a file, [main] checks it without ever
    running the zero-run probe, whatever threshold the configuration
    holds: no event of the whole run reads the file's bytes. *)
Theorem single_file_mode_skips_zero_run (W : World) (cfg : Config) :
  os_path_isfile W (checkpath cfg) = true ->
  no_zero_run (fst (main W cfg)).
Proof.
  intros Hfile. unfold main. rewrite Hfile.
  destruct (bind (banner W) _) as [t0 r0] eqn:Hpro.
  assert (H0 : no_zero_run t0).
  { change t0 with (trace (t0, r0)). rewrite <- Hpro.
    unfold no_zero_run, banner, emit, ret. quiet. }
  destruct (main_single W cfg (checkpath cfg)) as [t r] eqn:Hsingle.
  cbn. apply Forall_app. split; [assumption |].
  change t with (trace (t, r)). rewrite <- Hsingle.
  unfold no_zero_run, main_single. apply lacks_bind.
  - apply check_file_no_zero_run. unfold default_zero_detect. lia.
  - intros is_success. unfold log_check_outcome.
    destruct (snd is_success) as [[? ?] ?]. unfold emit, ret. quiet.
Qed.

(** The instance of C10 at a configuration with threshold 50. *)
Lemma single_file_mode_skips_zero_run_witness :
  let cfg := Sample.config "photo.jpg" None 50 false in
  os_path_isfile Sample.small_files (checkpath cfg) = true /\
  no_zero_run (fst (main Sample.small_files cfg)).
Proof.
  cbv zeta. split; [reflexivity |].
  apply single_file_mode_skips_zero_run. reflexivity.
Defined.

(** ** Extensions and the scanner's filter *)

Section Strings.

Variable c : ascii.

Lemma rfind_lower_bound (s : string) : -1 <= rfind s c.
Proof.
  induction s as [| a s IH]; cbn; [lia |].
  destruct (0 <=? rfind s c) eqn:H; [lia |].
  destruct (Ascii.eqb a c); lia.
Qed.

Lemma rfind_absent (s : string) : ~ occurs c s <-> rfind s c = -1.
Proof.
  induction s as [| a s IH]; cbn; [tauto |].
  pose proof (rfind_lower_bound s) as Hlb.
  destruct (0 <=? rfind s c) eqn:H.
  - split; [| lia]. intros Hno. exfalso.
    assert (rfind s c <> -1) by lia. tauto.
  - assert (Hs : rfind s c = -1) by lia.
    destruct (Ascii.eqb_spec a c) as [-> | Hne].
    + split; [| lia]. intros Hno. exfalso. apply Hno. now left.
    + split; [reflexivity |]. intros _ [Heq | Hin]; [now apply Hne |].
      now apply IH in Hs.
Qed.

(** The last [c] of [stem ++ c ++ ext] is the one written out when
    [ext] holds none. *)
Lemma rfind_app (stem ext : string) :
  ~ occurs c ext ->
  rfind (stem ++ String c ext) c = Z.of_nat (String.length stem).
Proof.
  intros Hno. induction stem as [| a stem IH].
  - cbn [append rfind String.length]. apply rfind_absent in Hno.
    rewrite Hno. cbn. now rewrite Ascii.eqb_refl.
  - cbn [append rfind String.length]. rewrite IH.
    replace (0 <=? Z.of_nat (String.length stem)) with true by lia. lia.
Qed.

(** A found index splits the string at its last [c]. *)
Lemma rfind_split (s : string) :
  0 <= rfind s c ->
  s = take (Z.to_nat (rfind s c)) s
      ++ String c (drop (S (Z.to_nat (rfind s c))) s) /\
  ~ occurs c (drop (S (Z.to_nat (rfind s c))) s).
Proof.
  induction s as [| a s IH]; cbn [rfind]; [lia |].
  pose proof (rfind_lower_bound s) as Hlb.
  destruct (0 <=? rfind s c) eqn:H.
  - intros _. destruct IH as [IH1 IH2]; [lia |].
    replace (Z.to_nat (rfind s c + 1)) with (S (Z.to_nat (rfind s c))) by lia.
    change (take (S ?n) (String a s)) with (String a (take n s)).
    change (drop (S ?n) (String a s)) with (drop n s).
    cbn [append]. split; [now rewrite <- IH1 | exact IH2].
  - assert (Hs : rfind s c = -1) by lia.
    destruct (Ascii.eqb_spec a c) as [-> | Hne]; [| lia].
    intros _. cbn. split; [reflexivity |]. now apply rfind_absent.
Qed.

End Strings.

Lemma take_app_length (s t : string) : take (String.length s) (s ++ t) = s.
Proof. induction s as [| a s IH]; cbn; [now destruct t | now rewrite IH]. Qed.

Lemma drop_app_length (s t : string) : drop (String.length s) (s ++ t) = t.
Proof. induction s as [| a s IH]; cbn; [now destruct t | exact IH]. Qed.

Lemma take_length (n : nat) (s : string) (a : ascii) (t : string) :
  s = take n s ++ String a t -> String.length (take n s) = n.
Proof.
  revert s. induction n as [| n IH]; intros s H; [reflexivity |].
  destruct s as [| b s]; cbn in *; [discriminate |].
  injection H as H. f_equal. now apply IH.
Qed.

Lemma drop_next (i : nat) (p : string) (a : ascii) (q : string) :
  drop i p = String a q -> drop (S i) p = q.
Proof.
  revert p. induction i as [| i IH]; intros p H.
  - cbn in H. subst p. reflexivity.
  - destruct p as [| b p]; cbn in H; [discriminate |]. cbn. now apply IH.
Qed.

(** The loop of [splitext] over the characters [s] that lie before the
    last dot: it gives up when they are all dots. *)
Lemma skip_leading_dots_spec (p : string) (dotIndex : Z) (s rest : string)
      (i : nat) :
  drop i p = s ++ rest ->
  OsPath.skip_leading_dots p dotIndex (String.length s) (Z.of_nat i) =
  if all_dots s then (p, "")
  else (slice_to p dotIndex, slice_from p dotIndex).
Proof.
  revert i. induction s as [| a s IH]; intros i Hdrop.
  - reflexivity.
  - cbn [String.length OsPath.skip_leading_dots all_dots].
    unfold slice1. rewrite Nat2Z.id, Hdrop. cbn [append take].
    change (String a "" =? String OsPath.extsep "")%string
      with (Ascii.eqb a OsPath.extsep && true)%bool.
    rewrite andb_true_r.
    destruct (Ascii.eqb a OsPath.extsep); cbn [negb andb]; [| reflexivity].
    replace (Z.of_nat i + 1) with (Z.of_nat (S i)) by lia.
    apply IH. now apply drop_next with a.
Qed.

Lemma all_dots_false (s : string) :
  all_dots s = false <-> exists ch, occurs ch s /\ ch <> OsPath.extsep.
Proof.
  induction s as [| a s IH]; cbn.
  - split; [discriminate | intros (ch & [] & _)].
  - destruct (Ascii.eqb_spec a OsPath.extsep) as [-> | Hne]; cbn.
    + rewrite IH. split.
      * intros (ch & Hin & Hch). exists ch. auto.
      * intros (ch & [Heq | Hin] & Hch); [congruence | eauto].
    + split; [| reflexivity]. intros _. exists a. auto.
Qed.

(** Lower-casing neither makes nor removes a dot or a slash. *)
Lemma lower_ascii_keeps (c : ascii) :
  c = OsPath.extsep \/ c = OsPath.sep ->
  forall a, lower_ascii a = c <-> a = c.
Proof.
  intros [-> | ->] a;
    destruct a as [[] [] [] [] [] [] [] []]; vm_compute;
    split; intros H; solve [reflexivity | discriminate H].
Qed.

Lemma lower_occurs (c : ascii) (s : string) :
  c = OsPath.extsep \/ c = OsPath.sep ->
  occurs c (lower s) <-> occurs c s.
Proof.
  intros Hc. induction s as [| a s IH]; cbn; [tauto |].
  rewrite (lower_ascii_keeps c Hc a), IH. tauto.
Qed.

(** [splitext] on a name without directory part. *)
Lemma splitext_basename (p : string) :
  ~ occurs OsPath.sep p ->
  snd (OsPath.splitext p) =
  if 0 <=? rfind p OsPath.extsep then
    if all_dots (take (Z.to_nat (rfind p OsPath.extsep)) p) then ""
    else drop (Z.to_nat (rfind p OsPath.extsep)) p
  else "".
Proof.
  intros Hsep. apply rfind_absent in Hsep.
  unfold OsPath.splitext. cbv zeta. rewrite Hsep.
  change (-1 + 1) with 0. rewrite Z.sub_0_r.
  pose proof (rfind_lower_bound OsPath.extsep p) as Hlb.
  destruct (0 <=? rfind p OsPath.extsep) eqn:Hdot.
  - apply Z.leb_le in Hdot.
    assert (Hgt : (rfind p OsPath.extsep >? -1) = true) by lia.
    rewrite Hgt.
    destruct (rfind_split OsPath.extsep p) as [Hsplit _]; [lia |].
    set (d := rfind p OsPath.extsep) in *.
    rewrite <- (take_length _ _ _ _ Hsplit) at 1.
    change 0 with (Z.of_nat 0).
    rewrite (skip_leading_dots_spec p d (take (Z.to_nat d) p)
               (String OsPath.extsep (drop (S (Z.to_nat d)) p)) 0)
      by exact Hsplit.
    destruct (all_dots (take (Z.to_nat d) p)); reflexivity.
  - apply Z.leb_gt in Hdot.
    assert (Hgt : (rfind p OsPath.extsep >? -1) = false) by lia.
    rewrite Hgt. reflexivity.
Qed.

(** The extension [get_extension] gives for a name without directory
    part: what follows the last dot, when something other than dots comes
    before that dot; the empty string otherwise. *)
Lemma get_extension_spec (filename ext : string) :
  ~ occurs OsPath.sep filename -> ext <> "" ->
  (get_extension filename = ext <->
   exists stem,
     lower filename = stem ++ String OsPath.extsep ext /\
     ~ occurs OsPath.extsep ext /\
     all_dots stem = false).
Proof.
  intros Hsep Hext. unfold get_extension.
  rewrite splitext_basename by (now rewrite lower_occurs by auto).
  set (p := lower filename). unfold slice_from. change (Z.to_nat 1) with 1%nat.
  split.
  - destruct (0 <=? rfind p OsPath.extsep) eqn:Hdot;
      [| intros <-; now contradiction Hext].
    destruct (rfind_split OsPath.extsep p) as [Hsplit Hno]; [lia |].
    set (d := Z.to_nat (rfind p OsPath.extsep)) in *.
    destruct (all_dots (take d p)) eqn:Hdots;
      [intros <-; now contradiction Hext |].
    intros Hdrop. exists (take d p).
    assert (Hd : drop d p = String OsPath.extsep (drop (S d) p)).
    { rewrite Hsplit at 1. rewrite <- (take_length _ _ _ _ Hsplit) at 1.
      apply drop_app_length. }
    rewrite Hd in Hdrop. cbn in Hdrop. subst ext. auto.
  - intros (stem & Hp & Hno & Hdots).
    rewrite Hp, rfind_app by assumption.
    assert (Hpos : (0 <=? Z.of_nat (String.length stem)) = true)
      by (apply Z.leb_le; lia).
    rewrite Hpos, Nat2Z.id, take_app_length, drop_app_length, Hdots. reflexivity.
Qed.

Lemma empty_not_media (cfg : Config) :
  mem "" (MEDIA_EXTENSIONS (globals cfg)) = false.
Proof.
  unfold globals, setup.
  destruct (is_disable_extra cfg), (is_disable_image cfg),
           (is_enable_media cfg); reflexivity.
Qed.

(** C7 (amended).  For a file name as [os.walk] lists it (without
    directory part), the scanner's filter accepts the name exactly when
    its lower-cased form is [stem.ext] with no dot in [ext], some
    character other than a dot in [stem] and [ext] in the extension list
    that [setup] built; a name without any dot is rejected, and two names
    that differ in letter case only are treated alike. *)
Theorem is_target_file_spec (cfg : Config) (filename : string) :
  ~ occurs OsPath.sep filename ->
  (is_target_file (globals cfg) filename = true <->
   exists stem ext,
     lower filename = stem ++ String OsPath.extsep ext /\
     ~ occurs OsPath.extsep ext /\
     (exists ch, occurs ch stem /\ ch <> OsPath.extsep) /\
     In ext (MEDIA_EXTENSIONS (globals cfg))) /\
  (~ occurs OsPath.extsep filename ->
   is_target_file (globals cfg) filename = false) /\
  (forall other, lower other = lower filename ->
   is_target_file (globals cfg) other = is_target_file (globals cfg) filename).
Proof.
  intros Hsep. split; [| split].
  - unfold is_target_file. split.
    + intros Hmem.
      assert (Hne : get_extension filename <> "").
      { intros Heq. rewrite Heq, empty_not_media in Hmem. discriminate. }
      destruct (proj1 (get_extension_spec filename _ Hsep Hne) eq_refl)
        as (stem & Hp & Hno & Hdots).
      exists stem, (get_extension filename).
      rewrite <- all_dots_false, <- mem_In. auto.
    + intros (stem & ext & Hp & Hno & Hdots & Hin).
      assert (Hne : ext <> "").
      { intros ->. apply mem_In in Hin.
        rewrite empty_not_media in Hin. discriminate. }
      apply all_dots_false in Hdots.
      rewrite (proj2 (get_extension_spec filename ext Hsep Hne))
        by eauto.
      now apply mem_In.
  - intros Hdot. unfold is_target_file, get_extension.
    rewrite splitext_basename by (now rewrite lower_occurs by auto).
    rewrite <- (lower_occurs OsPath.extsep) in Hdot by auto.
    apply rfind_absent in Hdot. rewrite Hdot. cbn.
    apply empty_not_media.
  - intros other Heq. unfold is_target_file, get_extension.
    now rewrite Heq.
Qed.

(** The instance of C7 (amended) at [Holiday.JPG]. *)
Lemma is_target_file_spec_witness :
  let cfg := Sample.config "media" None 0 false in
  ~ occurs OsPath.sep "Holiday.JPG" /\
  is_target_file (globals cfg) "Holiday.JPG" = true /\
  is_target_file (globals cfg) "HOLIDAY.jpg" = true.
Proof.
  cbv zeta.
  assert (Hsep : ~ occurs OsPath.sep "Holiday.JPG").
  { cbn. intros H. repeat destruct H as [H | H]; try discriminate H.
    exact H. }
  split; [exact Hsep |].
  destruct (is_target_file_spec (Sample.config "media" None 0 false)
                                "Holiday.JPG" Hsep) as (Hiff & _ & Hcase).
  split.
  - apply Hiff. exists "holiday", "jpg". cbn.
    split; [reflexivity |]. split.
    + intros H. repeat destruct H as [H | H]; try discriminate H. exact H.
    + split; [exists "h"%char; split; [now left | discriminate] |].
      now left.
  - rewrite (Hcase "HOLIDAY.jpg" eq_refl). reflexivity.
Defined.

(** C7 as stated fails on [.jpg]: what follows the last dot is [jpg],
    which is in the extension list, yet the filter rejects the name,
    because [splitext] does not take a leading dot for an extension. *)
Lemma dot_name_is_rejected :
  let cfg := Sample.config "media" None 0 false in
  lower ".jpg" = "" ++ String OsPath.extsep "jpg" /\
  ~ occurs OsPath.extsep "jpg" /\
  In "jpg" (MEDIA_EXTENSIONS (globals cfg)) /\
  is_target_file (globals cfg) ".jpg" = false.
Proof.
  cbv zeta. split; [reflexivity |]. split.
  - cbn. intros H. repeat destruct H as [H | H]; try discriminate H. exact H.
  - split; [now left | reflexivity].
Qed.

(** ** The throttled logger *)

Lemma Qgtb_lt (a b : Q) : Logger.Qgtb a b = true <-> (b < a)%Q.
Proof.
  unfold Logger.Qgtb. rewrite negb_true_iff. split.
  - intros H. apply Qnot_le_lt. intros Hle.
    apply Qle_bool_iff in Hle. congruence.
  - intros H. destruct (Qle_bool a b) eqn:Hle; [| reflexivity].
    apply Qle_bool_iff in Hle. exfalso. now apply (Qlt_not_le b a).
Qed.

Lemma elapsed_nonzero (now start : Q) :
  ~ (now == start)%Q ->
  Qeq_bool (now - start) 0 = false /\
  Qeq_bool (inject_Z Logger.MiB * (now - start)) 0 = false.
Proof.
  intros Hne.
  assert (H1 : ~ (now - start == 0)%Q).
  { intros H. apply Hne. rewrite <- (Qplus_0_l start).
    rewrite <- H. ring. }
  split.
  - destruct (Qeq_bool (now - start) 0) eqn:E; [| reflexivity].
    apply Qeq_bool_iff in E. contradiction.
  - destruct (Qeq_bool (inject_Z Logger.MiB * (now - start)) 0) eqn:E;
      [| reflexivity].
    apply Qeq_bool_iff in E. apply Qmult_integral in E.
    destruct E as [E | E]; [discriminate E | contradiction].
Qed.

(** C9 (amended).  A call of [print_log] with [force] set prints the
    progress lines whenever the clock has moved since [start]; a call
    without [force] prints them only if the bytes counted since the last
    printing are at least the byte threshold and more than
    [UPDATE_SEC_INTERVAL] seconds have passed since the last printing. *)
Theorem print_log_throttle (self : TimedLogger) (now : Q)
        (num_files num_bad_files total_file_size wait_min_processed : Z) :
  (~ (now == start_time self)%Q ->
   emitted (Logger.print_log now num_files num_bad_files total_file_size
                             wait_min_processed true self) = true) /\
  (emitted (Logger.print_log now num_files num_bad_files total_file_size
                             wait_min_processed false self) = true ->
   wait_min_processed * Logger.MiB <= total_file_size - previous_size self /\
   (inject_Z UPDATE_SEC_INTERVAL < now - previous_time self)%Q).
Proof.
  split.
  - intros Hne. destruct (elapsed_nonzero now (start_time self) Hne)
      as [H1 H2].
    unfold Logger.print_log, sbind, get, put, Logger.truediv, lift, emit.
    cbn [negb andb]. rewrite orb_true_r. cbv beta iota.
    rewrite H2. unfold sret. cbv beta iota. rewrite H1. reflexivity.
  - unfold Logger.print_log, sbind, get, put, sret.
    cbn [negb andb orb].
    destruct (total_file_size - previous_size self
              <? wait_min_processed * Logger.MiB) eqn:Hbytes;
      [discriminate |].
    rewrite orb_false_r.
    destruct (Logger.Qgtb (now - previous_time self)
                          (inject_Z UPDATE_SEC_INTERVAL)) eqn:Htime;
      [| discriminate].
    intros _. split; [lia | now apply Qgtb_lt].
Qed.

(** The instance of C9 (amended) at a logger started at second 0 that is
    called at second 6 with 600 MiB counted. *)
Lemma print_log_throttle_witness :
  let self := Logger.start 0 Logger.init in
  let total := 600 * Logger.MiB in
  ~ (6 == start_time self)%Q /\
  emitted (Logger.print_log 6 4 1 total UPDATE_MB_INTERVAL true self) = true /\
  emitted (Logger.print_log 6 4 1 total UPDATE_MB_INTERVAL false self) = true /\
  UPDATE_MB_INTERVAL * Logger.MiB <= total - previous_size self /\
  (inject_Z UPDATE_SEC_INTERVAL < 6 - previous_time self)%Q.
Proof.
  cbv zeta.
  assert (Hne : ~ (6 == start_time (Logger.start 0 Logger.init))%Q)
    by (intros H; discriminate H).
  destruct (print_log_throttle (Logger.start 0 Logger.init) 6 4 1
              (600 * Logger.MiB) UPDATE_MB_INTERVAL) as [Hforced Hquiet].
  split; [exact Hne |].
  split; [exact (Hforced Hne) |].
  split; [reflexivity |].
  exact (Hquiet eq_refl).
Defined.

(** C9 as stated fails when the bytes counted since the last printing
    are exactly the threshold: they do not exceed it, and the call
    without [force] prints all the same.  It also fails for a call with
    [force] at a clock reading equal to the one of [start]: the call
    prints nothing and raises [ZeroDivisionError]. *)
Lemma print_log_at_byte_threshold :
  let self := Logger.start 0 Logger.init in
  let total := UPDATE_MB_INTERVAL * Logger.MiB in
  (emitted (Logger.print_log 6 4 1 total UPDATE_MB_INTERVAL false self) = true /\
   ~ (UPDATE_MB_INTERVAL * Logger.MiB < total - previous_size self)) /\
  Logger.print_log 0 4 1 total UPDATE_MB_INTERVAL true self =
  ([], ({| previous_time := 0; previous_size := total; start_time := 0 |},
        inl (Exn ZeroDivisionError [VStr "float division by zero"]))).
Proof.
  cbv zeta. split; [split; [reflexivity | cbn; lia] | reflexivity].
Qed.

(** ** The collector *)

(** [print_log] writes no report, and the only exception it can raise is
    the [ZeroDivisionError] of its throughput divisions. *)
Lemma print_log_run (now : Q) (n b total wmin : Z) (force : bool)
      (self : TimedLogger) :
  exists t l r,
    Logger.print_log now n b total wmin force self = (t, (l, r)) /\
    lacks is_report_event t /\
    (forall e, r = inl e -> exn_cls e = ZeroDivisionError).
Proof.
  unfold Logger.print_log, sbind, get, put, Logger.truediv, lift, emit,
         sret, sraise.
  destruct (negb force && (total - previous_size self <? wmin * Logger.MiB)).
  { do 3 eexists. split; [reflexivity |]. split; [constructor |].
    intros e H; discriminate H. }
  destruct (Logger.Qgtb (now - previous_time self)
                        (inject_Z UPDATE_SEC_INTERVAL) || force).
  2: { do 3 eexists. split; [reflexivity |]. split; [constructor |].
       intros e H; discriminate H. }
  cbv beta iota.
  destruct (Qeq_bool (inject_Z Logger.MiB * (now - start_time self)) 0).
  { do 3 eexists. split; [reflexivity |]. split; [constructor |].
    intros e H. injection H as <-. reflexivity. }
  cbv beta iota.
  destruct (Qeq_bool (now - start_time self) 0).
  { do 3 eexists. split; [reflexivity |]. split; [constructor |].
    intros e H. injection H as <-. reflexivity. }
  do 3 eexists. split; [reflexivity |]. split.
  - cbn. repeat constructor.
  - intros e H; discriminate H.
Qed.

Section Collector.

Variable W : World.

Lemma log_check_outcome_run (d : detail) :
  exists line, log_check_outcome d = ([EPrint line], inr tt).
Proof. destruct d as [[filename error] size]. eexists. reflexivity. Qed.

(** A turn whose wait times out has counted the file it waited for. *)
Lemma collect_body_timeout (j : nat) (s : Locals) :
  out_queue_get W j = None ->
  collect_body W j s =
  ([], ({| count := count s + 1; count_bad := count_bad s;
           total_file_size := total_file_size s;
           bad_files_info := bad_files_info s;
           timed_logger := timed_logger s |}, inl (Exn Empty []))).
Proof.
  intros Hget. unfold collect_body, sbind, modify. rewrite Hget. reflexivity.
Qed.

(** A turn that receives an outcome [o] updates the locals by [absorb]. *)
Lemma collect_body_received (j : nat) (s : Locals) (o : outcome) :
  out_queue_get W j = Some o ->
  exists t l r,
    collect_body W j s = (t, (absorb o s l, r)) /\
    lacks is_report_event t /\
    (forall e, r = inl e -> exn_cls e = ZeroDivisionError).
Proof.
  intros Hget. unfold collect_body, sbind at 1 2, modify. rewrite Hget.
  unfold sret at 1. cbv beta iota.
  destruct o as [ok [[filename error] size]]. unfold absorb.
  cbn [fst snd].
  destruct size as [| n], ok; cbn [negb];
    unfold sbind, modify, sret, get, lift, with_logger;
    cbn [count count_bad total_file_size bad_files_info timed_logger
         fst snd log_check_outcome emit];
    match goal with
    | |- context [Logger.print_log ?a1 ?a2 ?a3 ?a4 ?a5 ?a6 ?a7] =>
        destruct (print_log_run a1 a2 a3 a4 a5 a6 a7)
          as (t & l & r & -> & Ht & Hr)
    end;
    do 3 eexists; (split; [reflexivity |]); (split; [| exact Hr]);
    cbn [app]; solve [assumption | constructor; [reflexivity | assumption]].
Qed.

Lemma absorb_counts (o : outcome) (s : Locals) (l : TimedLogger) :
  count_bad (absorb o s l) =
    count_bad s + Z.of_nat (List.length (failures [o])) /\
  total_file_size (absorb o s l) = total_file_size s + known_bytes [o] /\
  bad_files_info (absorb o s l) =
    (bad_files_info s ++ map tuple_of_detail (failures [o]))%list.
Proof.
  destruct o as [ok [[filename error] size]].
  unfold absorb, failures, failed. cbn [fst snd filter negb known_bytes].
  destruct ok, size; cbn; rewrite ?app_nil_r; repeat split; lia.
Qed.

(** What the locals hold when the collector loop ends, however it ends:
    the bad count, the bytes and the report rows are those of the
    outcomes received; [count] is their number when the loop runs to its
    end, and one more when a wait timed out. *)
Lemma collect_loop_counts (turns j : nat) (s : Locals) :
  exists t s' r received,
    collect_loop W turns j s = (t, (s', r)) /\
    got W j received /\
    lacks is_report_event t /\
    count_bad s' =
      count_bad s + Z.of_nat (List.length (failures received)) /\
    total_file_size s' = total_file_size s + known_bytes received /\
    bad_files_info s' =
      (bad_files_info s ++ map tuple_of_detail (failures received))%list /\
    match r with
    | inr _ =>
        List.length received = turns /\
        count s' = count s + Z.of_nat turns
    | inl e =>
        if is_Empty (exn_cls e) then
          out_queue_get W (j + List.length received) = None /\
          count s' = count s + Z.of_nat (List.length received) + 1
        else
          count s' = count s + Z.of_nat (List.length received)
    end.
Proof.
  revert j s. induction turns as [| turns IH]; intros j s.
  - exists [], s, (inr tt), []. cbn. rewrite app_nil_r.
    repeat split; try lia. constructor.
  - cbn [collect_loop]. unfold sbind.
    destruct (out_queue_get W j) as [o |] eqn:Hget.
    + destruct (collect_body_received j s o Hget)
        as (t1 & l & r1 & -> & Ht1 & Hr1).
      destruct (absorb_counts o s l) as (Hbad & Hbytes & Hrows).
      destruct r1 as [e | []].
      * exists t1, (absorb o s l), (inl e), [o].
        rewrite (Hr1 e eq_refl). cbn [is_Empty got List.length].
        repeat split; assumption.
      * destruct (IH (S j) (absorb o s l))
          as (t2 & s2 & r2 & received & -> & Hgot & Ht2 & Hb2 & Hy2 & Hr2 & Hc2).
        exists (t1 ++ t2)%list, s2, r2, (o :: received).
        split; [reflexivity |]. split; [cbn; auto |].
        split; [apply Forall_app; auto |].
        assert (Hf : failures (o :: received) =
                     (failures [o] ++ failures received)%list).
        { unfold failures. cbn [filter]. destruct (failed o); reflexivity. }
        assert (Hk : known_bytes (o :: received) =
                     known_bytes [o] + known_bytes received).
        { cbn. destruct (snd (snd o)); lia. }
        rewrite Hf, Hk, length_app, map_app, app_assoc, <- Hrows.
        split; [lia |]. split; [lia |]. split; [exact Hr2 |].
        cbn [absorb count] in Hc2. cbn [List.length].
        destruct r2 as [e | u].
        -- destruct (is_Empty (exn_cls e)).
           ++ destruct Hc2 as [Hnone Hc2].
              replace (j + S (List.length received))%nat
                with (S j + List.length received)%nat by lia.
              split; [exact Hnone | lia].
           ++ lia.
        -- destruct Hc2 as [Hlen Hc2]. split; lia.
    + rewrite (collect_body_timeout j s Hget).
      eexists [], _, (inl (Exn Empty [])), []. cbn. rewrite app_nil_r.
      rewrite Nat.add_0_r.
      repeat split; cbn; try lia; try assumption; constructor.
Qed.

End Collector.

(** ** The end of the run *)

(** Shows that a list built from known pieces holds no report event. *)
Ltac report_free :=
  unfold lacks in *; cbn [app];
  repeat first
    [ assumption
    | apply Forall_nil
    | apply Forall_cons; [reflexivity |]
    | apply Forall_app; split ].

Section Run.

Variables (W : World) (cfg : Config).

Lemma thumb_check_lacks_report (root : string) :
  lacks is_report_event (trace (thumb_check W root)).
Proof.
  unfold thumb_check, pil_check, emit, call_, ret. quiet.
Qed.

Lemma scan_lacks_report (walk : list (string * list string))
      (pre_count : Z) (task_queue : list string) :
  lacks is_report_event (trace (scan W cfg walk pre_count task_queue)).
Proof.
  revert pre_count task_queue.
  induction walk as [| [root files] walk IH]; intros pre_count task_queue.
  - constructor.
  - cbn [scan]. apply lacks_bind; [apply thumb_check_lacks_report |].
    intros _. destruct (negb (is_recurse cfg)); [constructor | apply IH].
Qed.

(** An exception that ends the collector loop ends the run: the handler
    for [Empty] raises [AttributeError] itself, and any other exception
    is not handled; the final report is not reached. *)
Lemma consume_unfold (pre_count : Z) (s : Locals) :
  consume W cfg pre_count s =
  match collect_loop W (Z.to_nat pre_count) 0 s with
  | (t, (s1, inl e)) =>
      (t, (s1, inl (if is_Empty (exn_cls e)
                    then no_attribute "Empty" "message"
                    else e)))
  | (t, (s1, inr _)) =>
      match final_report W cfg pre_count s1 with
      | (t', r) => ((t ++ t')%list, r)
      end
  end.
Proof.
  unfold consume, sbind at 1, stry.
  destruct (collect_loop W (Z.to_nat pre_count) 0 s) as [t [s1 [e | u]]].
  - destruct (exn_cls e) eqn:Hcls; cbn [is_Empty]; try reflexivity.
    unfold sbind, lift, getattr_message, raise. cbn [fst snd].
    rewrite Hcls, app_nil_r. reflexivity.
  - reflexivity.
Qed.

(** The final report writes the CSV file at most once, as the last thing
    before the closing line, and what it writes is [bad_files_info]. *)
Lemma final_report_run (pre_count : Z) (s : Locals) :
  exists t s' r,
    final_report W cfg pre_count s = (t, (s', r)) /\
    count s' = count s /\ count_bad s' = count_bad s /\
    forall csv rows,
      In (EWriteCsv csv rows) t ->
      csv_filename cfg = Some csv /\ rows = bad_files_info s /\
      r = inr Returned /\
      exists before,
        t = (before ++ [EWriteCsv csv rows;
                        EPrint [VStr "Few files look damaged :-("]])%list /\
        lacks is_report_event before.
Proof.
  unfold final_report, sbind, lift, emit, get, with_logger, sret.
  cbn [fst snd].
  destruct (print_log_run (time_time W (S (Z.to_nat pre_count)))
              (count s) (count_bad s) (total_file_size s)
              UPDATE_MB_INTERVAL true (timed_logger s))
    as (t1 & l & r1 & -> & Ht1 & _).
  assert (Hno : forall pre csv rows,
             lacks is_report_event pre ->
             ~ In (EWriteCsv csv rows) pre).
  { intros pre csv rows Hpre Hin.
    unfold lacks in Hpre. rewrite Forall_forall in Hpre.
    specialize (Hpre _ Hin). discriminate Hpre. }
  destruct r1 as [e | []].
  { do 3 eexists. split; [reflexivity |]. cbn [count count_bad].
    split; [reflexivity |]. split; [reflexivity |].
    intros csv rows Hin. exfalso.
    apply (Hno (EPrint [VStr (nl ++ "**Task completed**" ++ nl)] :: t1)
               csv rows); [| exact Hin].
    report_free. }
  cbn [count count_bad bad_files_info].
  unfold enable_csv.
  destruct (count_bad s >? 0) eqn:Hbad;
    destruct (csv_filename cfg) as [csv0 |] eqn:Hcsv; cbn [andb].
  2-4: destruct (count_bad s =? 0);
       (do 3 eexists; split; [reflexivity |]; cbn [count count_bad];
        split; [reflexivity |]; split; [reflexivity |];
        intros csv rows Hin; exfalso;
        refine (Hno _ csv rows _ Hin);
        report_free).
  unfold save_csv, list_of_tuple. rewrite map_id.
  assert (Hz : (count_bad s =? 0) = false) by lia.
  destruct (open_write W csv0) as [e |]; unfold raise, emit; cbn [fst snd].
  - do 3 eexists; split; [reflexivity |]; cbn [count count_bad];
      split; [reflexivity |]; split; [reflexivity |].
    intros csv rows Hin; exfalso.
    refine (Hno _ csv rows _ Hin).
    report_free.
  - rewrite Hz. do 3 eexists; split; [reflexivity |]; cbn [count count_bad];
      split; [reflexivity |]; split; [reflexivity |].
    intros csv rows Hin.
    set (before := (EPrint [VStr (nl ++ "**Task completed**" ++ nl)] :: t1 ++
             [EPrint [VStr (nl ++ "Save details for bad files in CSV format, file path:");
                      VStr csv0]])%list).
    assert (Hbefore : lacks is_report_event before).
    { unfold before. report_free. }
    match type of Hin with
    | In _ ?t =>
        assert (Ht : t = (before ++
                   [EWriteCsv csv0 (bad_files_info s);
                    EPrint [VStr "Few files look damaged :-("]])%list)
    end.
    { unfold before. cbn [app]. rewrite ?app_nil_r, <- ?app_assoc.
      reflexivity. }
    rewrite Ht in Hin |- *. apply in_app_or in Hin.
    destruct Hin as [Hin | [Hin | [Hin | []]]];
      [exfalso; exact (Hno _ _ _ Hbefore Hin) | | discriminate Hin].
    injection Hin as <- <-. repeat split. exists before. auto.
Qed.

End Run.

(** C1 (the code at a collection timeout).  In a folder of two files the
    first outcome, a failure, arrives and the wait for the second times
    out.  The handler's [e.message] raises [AttributeError], which ends
    [main]: nothing is printed after the line of the bad file, neither
    the summary nor the forced progress line, and no CSV file is written
    although one was asked for and a failure had been collected. *)
Theorem collection_timeout_ends_run :
  let cfg := Sample.config "media" (Some "bad.csv") 0 false in
  out_queue_get Sample.stalled 0 = Some Sample.first_outcome /\
  out_queue_get Sample.stalled 1 = None /\
  main Sample.stalled cfg =
  ([EPrint [VStr "Files integrity check for:"; VStr "media"];
    EPathExists "media/.thumb";
    EPrint [VStr "Bad file:"; VStr "media/a.jpg"; VStr ", error detail:";
            VStr "Zero size file"; VStr ", size[bytes]:"; VStr "NA"]],
   inl (Exn AttributeError
            [VStr "'Empty' object has no attribute 'message'"])).
Proof.
  cbv zeta. repeat split; reflexivity.
Qed.

(** C2 (the code at a collection timeout).  In the same run the loop
    ends by timeout after one outcome has been received, and [count] is
    2: the turn that timed out had already counted its file. *)
Theorem timeout_counts_unreceived_outcome :
  got Sample.stalled 0 [Sample.first_outcome] /\
  out_queue_get Sample.stalled 1 = None /\
  snd (collect_loop Sample.stalled 2 0 (initial_locals Sample.stalled)) =
  ({| count := 2; count_bad := 1; total_file_size := 0;
      bad_files_info := [header; tuple_of_detail (snd Sample.first_outcome)];
      timed_logger := Logger.start 0 Logger.init |},
   inl (Exn Empty [])).
Proof.
  repeat split; reflexivity.
Qed.

(** * Further properties *)

(** ** What [check_file] returns *)

Lemma check_file_ext (g : Globals) (W : World)
      (filename nominate error_detect : string) (zero_detect threads : Z) :
  check_file g W filename nominate error_detect zero_detect threads =
  try_except
    (bind (check_size W filename true) (fun file_size =>
       try_except
         (bind (check_file_probes g W filename (file_ext_of filename nominate)
                                  error_detect zero_detect threads)
               (fun _ => ret (true, (filename, None, Bytes file_size))))
         any_Exception
         (fun e => ret (false, (filename, Some (str_exn e), Bytes file_size)))))
    any_Exception
    (fun e => ret (false, (filename, Some (str_exn e), NA))).
Proof. reflexivity. Qed.

(** X1.  [check_file] never raises: it returns an outcome for the path it was
    given, a success without message or a failure with one. *)
Theorem check_file_outcome_shape (g : Globals) (W : World)
        (filename nominate error_detect : string) (zero_detect threads : Z) :
  (exists size,
     result (check_file g W filename nominate error_detect zero_detect threads)
     = inr (true, (filename, None, size))) \/
  (exists message size,
     result (check_file g W filename nominate error_detect zero_detect threads)
     = inr (false, (filename, Some message, size))).
Proof.
  rewrite check_file_ext.
  generalize (check_file_probes g W filename (file_ext_of filename nominate)
                                error_detect zero_detect threads).
  intros probes. unfold check_size, call.
  destruct (os_stat_size W filename) as [e | n].
  - right. cbn. eauto.
  - destruct (n =? 0) eqn:Hn.
    + right. cbn. rewrite Hn. cbn. eauto.
    + destruct probes as [t [e | []]]; cbn; rewrite Hn; cbn; eauto.
Qed.

(** X3.  A file that cannot be stat'ed (missing, unreadable directory) is a
    failure with the message of the error and the size ['NA']; nothing
    else is tried on it. *)
Theorem check_file_stat_error (g : Globals) (W : World)
        (filename nominate error_detect : string) (zero_detect threads : Z)
        (e : exn) :
  os_stat_size W filename = inl e ->
  check_file g W filename nominate error_detect zero_detect threads =
  ([EStat filename], inr (false, (filename, Some (str_exn e), NA))).
Proof.
  intros Hstat. unfold check_file, check_size, call. cbn.
  rewrite Hstat. reflexivity.
Qed.

Lemma check_file_stat_error_witness :
  let W := Sample.world (fun _ => inl (Exn OSError [VStr "No such file"]))
                        (fun _ => inr []) Sample.no_walk Sample.seconds
                        Sample.no_queue in
  os_stat_size W "gone.png" = inl (Exn OSError [VStr "No such file"]) /\
  check_file initial_globals W "gone.png" "" "default" 0 0 =
  ([EStat "gone.png"], inr (false, ("gone.png", Some "No such file", NA))).
Proof.
  cbv zeta. split; [reflexivity |].
  apply (check_file_stat_error _ _ _ _ _ _ _
           (Exn OSError [VStr "No such file"])).
  reflexivity.
Defined.

(** A probe passes when it returns. *)
Lemma passes_bind (m k : M unit) :
  result (bind m (fun _ => k)) = inr tt <->
  result m = inr tt /\ result k = inr tt.
Proof.
  destruct m as [t [e | []]], k as [t' [e' | []]]; cbn;
    split; try tauto; try (intros H; discriminate H);
    intros [H1 H2]; discriminate.
Qed.

Lemma passes_if (b : bool) (m : M unit) :
  result (if b then m else ret tt) = inr tt <->
  (b = true -> result m = inr tt).
Proof.
  destruct b; cbn; split; auto. intros _ H. discriminate H.
Qed.

Lemma pil_check_passes (W : World) (filename : string) :
  result (pil_check W filename) = inr tt <->
  pil_verify W filename = None /\ pil_transpose W filename = None.
Proof.
  unfold pil_check. rewrite passes_bind. unfold call_, result. cbn.
  destruct (pil_verify W filename), (pil_transpose W filename);
    split; try tauto; intros [H1 H2]; discriminate.
Qed.

Lemma magick_check_passes (W : World) (filename : string) :
  result (magick_check W filename true) = inr tt <->
  wand_image W filename = None.
Proof.
  unfold magick_check, call_, try_except, bind, ret, raise, result.
  destruct (wand_image W filename) as [e |]; cbn.
  - destruct (is_Warning (exn_cls e)); cbn; split; intros H; discriminate H.
  - tauto.
Qed.

Lemma magick_identify_check_passes (W : World) (filename : string) :
  result (magick_identify_check W filename) = inr tt <->
  magick_identify W filename = inr 0.
Proof.
  unfold magick_identify_check, call, bind, ret, raise, result.
  destruct (magick_identify W filename) as [e | code]; cbn.
  - split; intros H; discriminate H.
  - destruct (Z.eqb_spec code 0) as [-> | Hne]; cbn.
    + tauto.
    + split; intros H; [discriminate H | congruence].
Qed.

Lemma ffmpeg_check_passes (W : World) (filename ed : string) (th : Z) :
  result (ffmpeg_check W filename ed th) = inr tt <->
  ffmpeg_run W filename (ffmpeg_input_kwargs ed th) = None.
Proof.
  unfold ffmpeg_check, call_, result. cbn.
  destruct (ffmpeg_run W filename (ffmpeg_input_kwargs ed th));
    split; intros H; try discriminate H; reflexivity.
Qed.

Lemma zero_run_part_passes (g : Globals) (W : World) (filename : string) :
  result (bind (CONFIG_zero_detect g) (fun threshold =>
            bind (check_zeros W filename (Some threshold))
                 (fun _ => ret tt))) = inr tt <->
  exists c thefilearray,
    CONFIG g = Some c /\ file_read W filename = inr thefilearray /\
    maxnum (zeros_scan thefilearray) < configured_threshold c.
Proof.
  unfold CONFIG_zero_detect, check_zeros, configured_threshold, call, bind,
         ret, raise, result.
  destruct (CONFIG g) as [c |]; cbn.
  2: { split; [intros H; discriminate H | intros (c & l & H & _); discriminate H]. }
  destruct (file_read W filename) as [e | l]; cbn.
  { split; [intros H; discriminate H |].
    intros (c' & l & _ & H & _); discriminate H. }
  destruct (maxnum (zeros_scan l) >=? zero_detect c) eqn:Hge; cbn.
  - split; [intros H; discriminate H |].
    intros (c' & l' & Hc & Hl & Hlt).
    injection Hc as <-. injection Hl as <-. lia.
  - split; [| reflexivity]. intros _. exists c, l.
    repeat split. lia.
Qed.

(** The probes of [check_file] return exactly when each of them passes. *)
Lemma check_file_probes_pass (g : Globals) (W : World)
      (filename file_ext error_detect : string) (zero_detect threads : Z) :
  result (check_file_probes g W filename file_ext error_detect
                            zero_detect threads) = inr tt <->
  (0 < zero_detect ->
   exists c thefilearray,
     CONFIG g = Some c /\ file_read W filename = inr thefilearray /\
     maxnum (zeros_scan thefilearray) < configured_threshold c) /\
  (mem file_ext (PIL_EXTENSIONS g) = true ->
   pil_verify W filename = None /\ pil_transpose W filename = None) /\
  (mem file_ext (PIL_EXTENSIONS g) = true \/
   mem file_ext MAGICK_EXTENSIONS = true ->
   wand_image W filename = None /\ magick_identify W filename = inr 0) /\
  (mem file_ext VIDEO_EXTENSIONS = true ->
   ffmpeg_run W filename (ffmpeg_input_kwargs error_detect threads) = None).
Proof.
  unfold check_file_probes.
  rewrite !passes_bind, !passes_if, !passes_bind.
  rewrite pil_check_passes, magick_check_passes,
          magick_identify_check_passes, ffmpeg_check_passes,
          zero_run_part_passes.
  assert (Hz : (zero_detect >? 0) = true <-> 0 < zero_detect) by lia.
  rewrite Hz. tauto.
Qed.

(** X2.  [check_file] reports success exactly when every probe it runs for
    the file passes: success is never reported for a file that a probe of
    its category rejected, and a file that all of them accept is never
    reported bad. *)
Theorem check_file_success_iff (g : Globals) (W : World)
        (filename nominate error_detect : string)
        (zero_detect threads size : Z) :
  result (check_file g W filename nominate error_detect zero_detect threads)
  = inr (true, (filename, None, Bytes size)) <->
  probes_pass g W filename (file_ext_of filename nominate) error_detect
              zero_detect threads size.
Proof.
  rewrite check_file_ext. unfold probes_pass.
  rewrite <- check_file_probes_pass.
  generalize (check_file_probes g W filename (file_ext_of filename nominate)
                                error_detect zero_detect threads).
  intros probes. unfold check_size, call.
  destruct (os_stat_size W filename) as [e | n]; cbn.
  { split; [intros H; discriminate H | intros (H & _); discriminate H]. }
  destruct (Z.eqb_spec n 0) as [-> | Hn]; cbn.
  { split; [intros H; discriminate H |].
    intros (H & Hne & _). injection H as <-. contradiction. }
  destruct probes as [t [e | []]]; cbn.
  - split; [intros H; discriminate H | intros (_ & _ & H); discriminate H].
  - split.
    + intros H. injection H as <-. auto.
    + intros (H & _). injection H as <-. reflexivity.
Qed.

(** ** The probes of each category *)

(** X5.  A video file that passed the size probe gets the verdict of
    ffmpeg: success when the run raises nothing, otherwise a failure with
    the message of what it raised.  The extension is the one [check_file]
    dispatches on: the nominated one, or the extension of the path when
    none is nominated, as in the calls of [main] and [worker]. *)
Theorem video_file_outcome (W : World) (cfg : Config)
        (filename nominate error_detect : string)
        (zero_detect threads n : Z) :
  os_stat_size W filename = inr n -> n <> 0 -> zero_detect <= 0 ->
  In (file_ext_of filename nominate) VIDEO_EXTENSIONS ->
  check_file (globals cfg) W filename nominate error_detect
             zero_detect threads =
  ([EStat filename;
    EFfmpegRun filename (ffmpeg_input_kwargs error_detect threads)],
   inr match ffmpeg_run W filename
                        (ffmpeg_input_kwargs error_detect threads) with
       | None => (true, (filename, None, Bytes n))
       | Some e => (false, (filename, Some (str_exn e), Bytes n))
       end).
Proof.
  intros Hstat Hn Hz Hin.
  assert (Hzd : (zero_detect >? 0) = false) by lia.
  apply Z.eqb_neq in Hn.
  rewrite check_file_ext. revert Hin.
  generalize (file_ext_of filename nominate). intros file_ext Hin.
  unfold check_file_probes, check_size, call, ffmpeg_check, call_.
  unfold globals, setup; cbn [PIL_EXTENSIONS MEDIA_EXTENSIONS CONFIG
                               initial_globals].
  rewrite Hzd, Hstat.
  simpl in Hin.
  destruct (is_disable_extra cfg);
    repeat (destruct Hin as [<- | Hin]; [cbn; rewrite Hn; cbn;
      destruct (ffmpeg_run W filename _); reflexivity |]);
    contradiction.
Qed.

Lemma video_file_outcome_witness :
  let cfg := Sample.config "media" None 0 true in
  os_stat_size Sample.small_files "media/Clip.MKV" = inr 5 /\
  5 <> 0 /\ 0 <= 0 /\
  In (file_ext_of "media/Clip.MKV" "") VIDEO_EXTENSIONS /\
  check_file (globals cfg) Sample.small_files "media/Clip.MKV" ""
             "strict" 0 2 =
  ([EStat "media/Clip.MKV";
    EFfmpegRun "media/Clip.MKV"
      [("err_detect", VStr "+crccheck+bitstream+buffer+explode");
       ("threads", VInt 2)]],
   inr (true, ("media/Clip.MKV", None, Bytes 5))).
Proof.
  cbv zeta.
  assert (Hin : In (file_ext_of "media/Clip.MKV" "") VIDEO_EXTENSIONS)
    by (apply (proj1 (mem_In _ _)); reflexivity).
  assert (Hne : 5 <> 0) by lia. assert (Hz : 0 <= 0) by lia.
  split; [reflexivity |]. split; [exact Hne |]. split; [exact Hz |].
  split; [exact Hin |].
  exact (video_file_outcome Sample.small_files
           (Sample.config "media" None 0 true) "media/Clip.MKV" "" "strict"
           0 2 5 eq_refl Hne Hz Hin).
Defined.

(** X6.  A [psd] or [xcf] file that passed the size probe is opened by
    wand and then identified by ImageMagick.  Whatever wand raises, a
    warning or an error, fails the file with the message of what was
    raised and [magick identify] is not started; an exit code other than
    0 fails it with ["Identify error:"] and the code.  The extension is
    the one [check_file] dispatches on: the nominated one, or the
    extension of the path when none is nominated. *)
Theorem magick_file_outcome (W : World) (cfg : Config)
        (filename nominate error_detect : string)
        (zero_detect threads n : Z) :
  os_stat_size W filename = inr n -> n <> 0 -> zero_detect <= 0 ->
  In (file_ext_of filename nominate) MAGICK_EXTENSIONS ->
  check_file (globals cfg) W filename nominate error_detect
             zero_detect threads =
  match wand_image W filename with
  | Some e =>
      ([EStat filename; EWandImage filename],
       inr (false, (filename, Some (str_exn e), Bytes n)))
  | None =>
      ([EStat filename; EWandImage filename; EMagickIdentify filename],
       inr match magick_identify W filename with
           | inl e => (false, (filename, Some (str_exn e), Bytes n))
           | inr code =>
               if code =? 0 then (true, (filename, None, Bytes n))
               else (false, (filename,
                             Some ("Identify error:" ++ str_of_Z code),
                             Bytes n))
           end)
  end.
Proof.
  intros Hstat Hn Hz Hin.
  assert (Hzd : (zero_detect >? 0) = false) by lia.
  apply Z.eqb_neq in Hn.
  rewrite check_file_ext. revert Hin.
  generalize (file_ext_of filename nominate). intros file_ext Hin.
  unfold check_file_probes, check_size, call,
         magick_check, magick_identify_check, call_.
  unfold globals, setup; cbn [PIL_EXTENSIONS MEDIA_EXTENSIONS CONFIG
                               initial_globals].
  rewrite Hzd, Hstat.
  simpl in Hin.
  destruct (is_disable_extra cfg);
    repeat (destruct Hin as [<- | Hin];
      [cbn; rewrite Hn; cbn;
       destruct (wand_image W filename) as [[cls args] |]; cbn;
       [destruct cls; cbn; try reflexivity;
        destruct args as [| a [| b args]]; reflexivity
       |destruct (magick_identify W filename) as [e | code]; cbn;
        [reflexivity | destruct (code =? 0); reflexivity]] |]);
    contradiction.
Qed.

Lemma magick_file_outcome_witness :
  let cfg := Sample.config "media" None 0 false in
  os_stat_size Sample.small_files "work.v2/Layers.PSD" = inr 5 /\
  5 <> 0 /\ 0 <= 0 /\
  In (file_ext_of "work.v2/Layers.PSD" "") MAGICK_EXTENSIONS /\
  check_file (globals cfg) Sample.small_files "work.v2/Layers.PSD" ""
             "default" 0 0 =
  ([EStat "work.v2/Layers.PSD"; EWandImage "work.v2/Layers.PSD";
    EMagickIdentify "work.v2/Layers.PSD"],
   inr (true, ("work.v2/Layers.PSD", None, Bytes 5))).
Proof.
  cbv zeta.
  assert (Hin : In (file_ext_of "work.v2/Layers.PSD" "") MAGICK_EXTENSIONS)
    by (apply (proj1 (mem_In _ _)); reflexivity).
  assert (Hne : 5 <> 0) by lia. assert (Hz : 0 <= 0) by lia.
  split; [reflexivity |]. split; [exact Hne |]. split; [exact Hz |].
  split; [exact Hin |].
  exact (magick_file_outcome Sample.small_files
           (Sample.config "media" None 0 false) "work.v2/Layers.PSD" ""
           "default" 0 0 5 eq_refl Hne Hz Hin).
Defined.

(** ** The zero-run probe and the global [CONFIG] *)

(** X10.  The [zero_detect] argument of [check_file] only switches the
    zero-run probe on: the threshold it applies is [CONFIG.zero_detect]
    of the module global, so any two arguments above 0 give the same
    run. *)
Theorem check_file_threshold_is_global (g : Globals) (W : World)
        (filename nominate error_detect : string)
        (zero_detect zero_detect' threads : Z) :
  0 < zero_detect -> 0 < zero_detect' ->
  check_file g W filename nominate error_detect zero_detect threads =
  check_file g W filename nominate error_detect zero_detect' threads.
Proof.
  intros H H'.
  assert (E : (zero_detect >? 0) = true) by lia.
  assert (E' : (zero_detect' >? 0) = true) by lia.
  unfold check_file, check_file_probes. rewrite E, E'. reflexivity.
Qed.

Lemma check_file_threshold_is_global_witness :
  let cfg := Sample.config "media" None 3 false in
  0 < 1 /\ 0 < 4000 /\
  check_file (globals cfg) Sample.small_files "scan.bin" "" "default" 1 0 =
  check_file (globals cfg) Sample.small_files "scan.bin" "" "default" 4000 0.
Proof.
  cbv zeta.
  assert (H1 : 0 < 1) by lia. assert (H2 : 0 < 4000) by lia.
  split; [exact H1 |]. split; [exact H2 |].
  exact (check_file_threshold_is_global _ _ _ _ _ 1 4000 _ H1 H2).
Defined.

(** X11.  Called with a threshold above 0 while the global [CONFIG] is still
    [None] (a caller other than [main], or a process that did not inherit
    the assignment), [check_file] fails every file of a size other than
    0 with the [AttributeError] of [CONFIG.zero_detect], without reading
    the file or running any decoder. *)
Theorem check_file_without_config (g : Globals) (W : World)
        (filename nominate error_detect : string)
        (zero_detect threads n : Z) :
  CONFIG g = None -> 0 < zero_detect ->
  os_stat_size W filename = inr n -> n <> 0 ->
  check_file g W filename nominate error_detect zero_detect threads =
  ([EStat filename],
   inr (false, (filename,
                Some "'NoneType' object has no attribute 'zero_detect'",
                Bytes n))).
Proof.
  intros Hcfg Hz Hstat Hn.
  assert (E : (zero_detect >? 0) = true) by lia.
  apply Z.eqb_neq in Hn.
  unfold check_file, check_file_probes, check_size, CONFIG_zero_detect, call.
  rewrite E, Hcfg, Hstat. cbn. rewrite Hn. reflexivity.
Qed.

Lemma check_file_without_config_witness :
  CONFIG initial_globals = None /\ 0 < 7 /\
  os_stat_size Sample.small_files "a.jpg" = inr 5 /\ 5 <> 0 /\
  check_file initial_globals Sample.small_files "a.jpg" "" "default" 7 0 =
  ([EStat "a.jpg"],
   inr (false, ("a.jpg",
                Some "'NoneType' object has no attribute 'zero_detect'",
                Bytes 5))).
Proof.
  assert (Hz : 0 < 7) by lia. assert (Hn : 5 <> 0) by lia.
  split; [reflexivity |]. split; [exact Hz |]. split; [reflexivity |].
  split; [exact Hn |].
  exact (check_file_without_config initial_globals Sample.small_files
           "a.jpg" "" "default" 7 0 5 eq_refl Hz eq_refl Hn).
Defined.

Lemma has_run_app (p q : list byte) (n : nat) :
  has_run p n -> has_run (p ++ q) n.
Proof.
  intros (before & b & after & ->). exists before, b, (after ++ q)%list.
  now rewrite <- !app_assoc.
Qed.

Lemma has_run_end (before after : list byte) (b : byte) (n : nat) :
  has_run (before ++ repeat b n ++ after) n.
Proof. now exists before, b, after. Qed.

Lemma scanned_first (i : byte) : scanned [i] (zeros_step zeros_init i).
Proof.
  unfold scanned. cbn. repeat split; try lia.
  exists [], i. repeat split. exact (has_run_end [] [] i 1).
Qed.

Lemma scanned_step (p : list byte) (s : zeros_state) (i : byte) :
  scanned p s -> scanned (p ++ [i]) (zeros_step s i).
Proof.
  intros (Hnum & Hmax & before & b & Hp & Hprev & Hrun).
  unfold zeros_step. rewrite Hprev.
  destruct (same_byte (Some b) i) eqn:Hsame.
  - cbn in Hsame. apply Byte.byte_dec_bl in Hsame. subst i.
    unfold scanned. cbn [num maxnum prev maxprev].
    split; [lia |]. split; [lia |]. exists before, b.
    split; [| split; [reflexivity | now apply has_run_app]].
    replace (Z.to_nat (num s + 1)) with (S (Z.to_nat (num s))) by lia.
    rewrite Hp at 1. rewrite <- app_assoc. f_equal.
    symmetry. apply repeat_cons.
  - assert (Hcur : has_run (p ++ [i]) (Z.to_nat (num s))).
    { rewrite Hp. rewrite <- app_assoc. apply has_run_end. }
    destruct (num s >? maxnum s) eqn:Hgt; unfold scanned;
      cbn [num maxnum prev maxprev];
      (split; [lia |]); (split; [lia |]); exists p, i;
      (split; [reflexivity |]); (split; [reflexivity |]).
    + exact Hcur.
    + now apply has_run_app.
Qed.

Lemma scanned_fold (l p : list byte) (s : zeros_state) :
  scanned p s -> scanned (p ++ l) (fold_left zeros_step l s).
Proof.
  revert p s. induction l as [| i l IH]; intros p s H.
  - now rewrite app_nil_r.
  - cbn [fold_left].
    replace (p ++ i :: l)%list with ((p ++ [i]) ++ l)%list
      by now rewrite <- app_assoc.
    apply IH. now apply scanned_step.
Qed.

(** The scan of a file that is not empty ends with a [maxnum] that a run
    of the file attains. *)
Lemma zeros_scan_attained (thefilearray : list byte) :
  thefilearray <> [] ->
  1 <= maxnum (zeros_scan thefilearray) /\
  has_run thefilearray (Z.to_nat (maxnum (zeros_scan thefilearray))).
Proof.
  destruct thefilearray as [| i l]; [congruence | intros _].
  unfold zeros_scan. cbn [fold_left].
  pose proof (scanned_fold l [i] _ (scanned_first i)) as H.
  cbn [app] in H.
  destruct H as (Hnum & Hmax & before & b & Hp & Hprev & Hrun).
  unfold zeros_finish.
  destruct (num _ >? maxnum _) eqn:Hgt; cbn [maxnum].
  - split; [lia |]. rewrite Hp at 1.
    rewrite <- (app_nil_r (repeat b _)). apply has_run_end.
  - split; assumption.
Qed.

(** X7.  Without a threshold [check_zeros] returns the length of the longest
    run of equal bytes of a file that is not empty: a run of that length
    occurs in the file and no longer one does. *)
Theorem check_zeros_longest_run (W : World) (filename : string)
        (thefilearray : list byte) :
  file_read W filename = inr thefilearray -> thefilearray <> [] ->
  exists longest,
    check_zeros W filename None = ([EReadFile filename], inr (Some longest)) /\
    has_run thefilearray (Z.to_nat longest) /\
    forall n, has_run thefilearray n -> Z.of_nat n <= longest.
Proof.
  intros Hread Hne.
  destruct (zeros_scan_attained thefilearray Hne) as [Hpos Hrun].
  exists (maxnum (zeros_scan thefilearray)).
  split; [| split; [exact Hrun |]].
  - unfold check_zeros, call, bind, ret. rewrite Hread. reflexivity.
  - intros n Hn. destruct n as [| n]; [lia |].
    apply zeros_scan_detects; [exact Hn | lia].
Qed.

Lemma check_zeros_longest_run_witness :
  file_read Sample.small_files "scan.bin" = inr Sample.five_bytes /\
  Sample.five_bytes <> [] /\
  exists longest,
    check_zeros Sample.small_files "scan.bin" None =
      ([EReadFile "scan.bin"], inr (Some longest)) /\
    has_run Sample.five_bytes (Z.to_nat longest) /\
    forall n, has_run Sample.five_bytes n -> Z.of_nat n <= longest.
Proof.
  assert (Hne : Sample.five_bytes <> []) by discriminate.
  split; [reflexivity |]. split; [exact Hne |].
  exact (check_zeros_longest_run Sample.small_files "scan.bin"
           Sample.five_bytes eq_refl Hne).
Defined.

(** X8.  With a threshold, [check_zeros] raises for a file that is not empty
    exactly when the file holds a run of at least that many equal bytes:
    it has no false alarm and misses no run. *)
Theorem check_zeros_raises_iff (W : World) (filename : string)
        (thefilearray : list byte) (threshold : Z) :
  file_read W filename = inr thefilearray -> thefilearray <> [] ->
  ((exists e, result (check_zeros W filename (Some threshold)) = inl e) <->
   (exists n, has_run thefilearray n /\ threshold <= Z.of_nat n)).
Proof.
  intros Hread Hne.
  destruct (zeros_scan_attained thefilearray Hne) as [Hpos Hrun].
  unfold check_zeros, call, bind, ret, raise, result. rewrite Hread. cbn.
  destruct (maxnum (zeros_scan thefilearray) >=? threshold) eqn:Hge; cbn.
  - split; [| eauto]. intros _.
    exists (Z.to_nat (maxnum (zeros_scan thefilearray))).
    split; [exact Hrun | lia].
  - split; [intros (e & H); discriminate H |].
    intros (n & Hn & Hle). exfalso.
    destruct n as [| n]; [lia |].
    pose proof (zeros_scan_detects thefilearray (S n) Hn). lia.
Qed.

Lemma check_zeros_raises_iff_witness :
  file_read Sample.small_files "scan.bin" = inr Sample.five_bytes /\
  Sample.five_bytes <> [] /\
  ((exists e, result (check_zeros Sample.small_files "scan.bin" (Some 3))
              = inl e) <->
   (exists n, has_run Sample.five_bytes n /\ 3 <= Z.of_nat n)).
Proof.
  assert (Hne : Sample.five_bytes <> []) by discriminate.
  split; [reflexivity |]. split; [exact Hne |].
  exact (check_zeros_raises_iff Sample.small_files "scan.bin"
           Sample.five_bytes 3 eq_refl Hne).
Defined.

(** ** What a check touches *)

Section ProbeEvents.

Variable P : event -> bool.
Hypothesis P_probe : forall ev, is_probe_event ev = true -> P ev = false.

Lemma lacks_probe {A} (ev : event) (r : exn + A) :
  is_probe_event ev = true -> lacks P (trace (([ev], r) : M A)).
Proof. intros H. apply lacks_one. now apply P_probe. Qed.

Ltac probe_quiet :=
  repeat first
    [ apply lacks_bind; [| intros ?]
    | apply lacks_try; [| intros ?]
    | match goal with
      | |- lacks _ (trace (if ?b then _ else _)) => destruct b
      | |- lacks _ (trace (match ?x with Some _ => _ | None => _ end)) =>
          destruct x
      end
    | (apply lacks_probe; reflexivity)
    | apply lacks_nil ].

Lemma check_zeros_lacks (W : World) (filename : string) (thr : option Z) :
  lacks P (trace (check_zeros W filename thr)).
Proof.
  unfold check_zeros, call, ret, raise. probe_quiet.
Qed.

(** Whatever its arguments, [check_file] does nothing but call probes. *)
Lemma check_file_lacks (g : Globals) (W : World)
      (filename nominate error_detect : string) (zero_detect threads : Z) :
  lacks P (trace (check_file g W filename nominate error_detect
                             zero_detect threads)).
Proof.
  unfold check_file, check_file_probes, check_size, CONFIG_zero_detect,
         pil_check, magick_check, magick_identify_check, ffmpeg_check,
         call, call_, ret, raise.
  probe_quiet; cbv zeta; probe_quiet.
Qed.

End ProbeEvents.

Lemma check_file_returns (g : Globals) (W : World)
      (filename nominate error_detect : string) (zero_detect threads : Z) :
  exists t ok error size,
    check_file g W filename nominate error_detect zero_detect threads =
    (t, inr (ok, (filename, error, size))).
Proof.
  rewrite check_file_ext.
  generalize (check_file_probes g W filename (file_ext_of filename nominate)
                                error_detect zero_detect threads).
  intros probes. unfold check_size, call.
  destruct (os_stat_size W filename) as [e | n].
  - cbn. eauto 6.
  - destruct (n =? 0) eqn:Hn.
    + cbn. rewrite Hn. cbn. eauto 6.
    + destruct probes as [t [e | []]]; cbn; rewrite Hn; cbn; eauto 6.
Qed.

(** ** The single file check *)

(** X17.  The single file check always ends in [sys.exit]: with status 0 after
    the line [File ... is OK] when [check_file] reports success, with
    status 1 after the [Bad file:] line when it reports a failure.  It
    never returns from [main] and never lets an exception escape. *)
Theorem single_file_mode_exit (W : World) (cfg : Config) :
  os_path_isfile W (checkpath cfg) = true ->
  exists t o,
    check_file (globals cfg) W (checkpath cfg) "" (error_detect cfg) 0 0 =
      (t, inr o) /\
    main W cfg =
      ((trace (banner W) ++
        [EPrint [VStr "Files integrity check for:"; VStr (checkpath cfg)]] ++
        t ++ [verdict_line (checkpath cfg) o])%list,
       inr (Exited (if fst o then 0 else 1))).
Proof.
  intros Hfile. unfold main. rewrite Hfile.
  assert (Hban : exists tb, banner W = (tb, inr tt)).
  { unfold banner. destruct (negb (pil_simd W)); eexists; reflexivity. }
  destruct Hban as [tb Hban]. rewrite Hban. cbn [bind emit trace fst].
  unfold main_single, default_zero_detect, default_ffmpeg_threads.
  destruct (check_file_returns (globals cfg) W (checkpath cfg) ""
              (error_detect cfg) 0 0) as (t & ok & error & size & Hrun).
  exists t, (ok, (checkpath cfg, error, size)).
  split; [exact Hrun |]. rewrite Hrun.
  unfold verdict_line, log_check_outcome, bind, emit, ret.
  destruct ok; cbn; rewrite ?app_nil_r, <- ?app_assoc; reflexivity.
Qed.

Lemma single_file_mode_exit_witness :
  let cfg := Sample.config "photo.jpg" None 50 false in
  os_path_isfile Sample.small_files (checkpath cfg) = true /\
  exists t o,
    check_file (globals cfg) Sample.small_files (checkpath cfg) ""
               (error_detect cfg) 0 0 = (t, inr o) /\
    main Sample.small_files cfg =
      ((trace (banner Sample.small_files) ++
        [EPrint [VStr "Files integrity check for:"; VStr (checkpath cfg)]] ++
        t ++ [verdict_line (checkpath cfg) o])%list,
       inr (Exited (if fst o then 0 else 1))).
Proof.
  cbv zeta. split; [reflexivity |].
  apply single_file_mode_exit. reflexivity.
Defined.

(** X18.  The single file check calls probes and prints, and nothing else: it
    walks no directory, removes no thumbnail and writes no CSV file, with
    whatever options it was started. *)
Theorem single_file_mode_events (W : World) (cfg : Config) :
  os_path_isfile W (checkpath cfg) = true ->
  Forall (fun ev => is_probe_event ev || is_print_event ev = true)
         (fst (main W cfg)).
Proof.
  intros Hfile.
  set (P := fun ev => negb (is_probe_event ev || is_print_event ev)).
  assert (HP : forall t, lacks P t ->
               Forall (fun ev => is_probe_event ev || is_print_event ev = true) t).
  { intros t Ht. unfold lacks in Ht. rewrite Forall_forall in *.
    intros ev Hin. specialize (Ht ev Hin). unfold P in Ht.
    now apply negb_false_iff in Ht. }
  apply HP. unfold main. rewrite Hfile.
  destruct (bind (banner W) _) as [t0 r0] eqn:Hpro.
  assert (H0 : lacks P t0).
  { change t0 with (trace (t0, r0)). rewrite <- Hpro.
    unfold banner, emit, ret. quiet. }
  destruct (main_single W cfg (checkpath cfg)) as [t r] eqn:Hsingle.
  cbn. apply Forall_app. split; [assumption |].
  change t with (trace (t, r)). rewrite <- Hsingle.
  unfold main_single. apply lacks_bind.
  - apply check_file_lacks. intros ev Hev. unfold P. now rewrite Hev.
  - intros is_success. unfold log_check_outcome.
    destruct (snd is_success) as [[? ?] ?]. unfold emit, ret. quiet.
Qed.

Lemma single_file_mode_events_witness :
  let cfg := Sample.config "photo.jpg" (Some "bad.csv") 50 true in
  os_path_isfile Sample.small_files (checkpath cfg) = true /\
  Forall (fun ev => is_probe_event ev || is_print_event ev = true)
         (fst (main Sample.small_files cfg)).
Proof.
  cbv zeta. split; [reflexivity |].
  apply single_file_mode_events. reflexivity.
Defined.

(** ** The allow-list and the scan *)

(** X13.  The extensions the scanner accepts after [setup]: the image
    extensions unless images are disabled, the extra and the ImageMagick
    ones only when neither images nor extras are disabled, the video and
    audio ones when media are enabled.  Disabling images thus disables
    the extra formats too. *)
Theorem setup_media_extensions (cfg : Config) (ext : string) :
  In ext (MEDIA_EXTENSIONS (globals cfg)) <-> enabled_extension cfg ext.
Proof.
  unfold globals, setup, enabled_extension.
  cbn [PIL_EXTENSIONS MEDIA_EXTENSIONS CONFIG initial_globals].
  destruct (is_disable_extra cfg), (is_disable_image cfg),
           (is_enable_media cfg); cbn [negb app];
    rewrite ?in_app_iff; change (In ext []) with False;
    intuition congruence.
Qed.

Section Scan.

Variables (W : World) (cfg : Config).

Lemma queued_length_cons (root : string) (files : list string)
      (walk : list (string * list string)) :
  queued (globals cfg) ((root, files) :: walk) =
  (map (OsPath.join root) (filter (is_target_file (globals cfg)) files)
   ++ queued (globals cfg) walk)%list.
Proof. reflexivity. Qed.

(** What [scan] returns, with the two accumulators made explicit. *)
Lemma scan_accumulates (walk : list (string * list string))
      (pre_count : Z) (task_queue : list string)
      (pre_count' : Z) (task_queue' : list string) :
  result (scan W cfg walk pre_count task_queue) =
    inr (pre_count', task_queue') ->
  task_queue' =
    (task_queue ++ queued (globals cfg) (visited cfg walk))%list /\
  pre_count' =
    pre_count
    + Z.of_nat (List.length (queued (globals cfg) (visited cfg walk))).
Proof.
  revert pre_count task_queue.
  induction walk as [| [root files] walk IH]; intros pre_count task_queue.
  - unfold visited. cbn. destruct (is_recurse cfg); cbn;
      intros H; injection H as <- <-; rewrite app_nil_r; split; lia || auto.
  - cbn [scan]. rewrite result_bind.
    destruct (result (thumb_check W root)) as [e | []];
      [intros H; discriminate H |].
    unfold visited in *. destruct (is_recurse cfg) eqn:Hrec; cbn [negb firstn].
    + intros H. apply IH in H. destruct H as [-> ->].
      rewrite queued_length_cons, length_app, length_map, app_assoc.
      split; [reflexivity | lia].
    + cbn. intros H. injection H as <- <-.
      rewrite app_nil_r, length_map. split; [reflexivity | lia].
Qed.

Lemma thumb_check_returns (root : string) :
  (forall p, os_remove W p = None) ->
  result (thumb_check W root) = inr tt.
Proof.
  intros Hrm. unfold thumb_check, pil_check, emit, call_, ret.
  cbn. destruct (os_path_exists W _); [| reflexivity].
  destruct (pil_verify W _); cbn; rewrite ?Hrm; cbn; try reflexivity.
  destruct (pil_transpose W _); cbn; rewrite ?Hrm; reflexivity.
Qed.

Lemma scan_returns (walk : list (string * list string))
      (pre_count : Z) (task_queue : list string) :
  (forall p, os_remove W p = None) ->
  exists r, result (scan W cfg walk pre_count task_queue) = inr r.
Proof.
  intros Hrm. revert pre_count task_queue.
  induction walk as [| [root files] walk IH]; intros pre_count task_queue.
  - eexists. reflexivity.
  - cbn [scan]. rewrite result_bind, (thumb_check_returns root Hrm).
    destruct (negb (is_recurse cfg)); [eexists; reflexivity | apply IH].
Qed.

End Scan.

(** X14.  [scan] queues, in the order of the walk, the joined path of every
    file the filter accepts, from every directory when recursing and from
    the top directory only when not; the count it hands to the collector
    is the number of paths queued.  Only a thumbnail that cannot be
    removed makes it raise instead. *)
Theorem scan_queue (W : World) (cfg : Config)
        (walk : list (string * list string)) :
  (forall p, os_remove W p = None) ->
  result (scan W cfg walk 0 []) =
  inr (Z.of_nat (List.length (queued (globals cfg) (visited cfg walk))),
       queued (globals cfg) (visited cfg walk)).
Proof.
  intros Hrm.
  destruct (scan_returns W cfg walk 0 [] Hrm) as [[pc q] Hr].
  rewrite Hr. destruct (scan_accumulates W cfg walk 0 [] pc q Hr) as [-> ->].
  reflexivity.
Qed.

Lemma scan_queue_witness :
  let cfg := Sample.config "media" None 0 false in
  let walk := [("media", ["a.jpg"; "notes.txt"; "B.PNG"]);
               ("media/sub", ["c.gif"])] in
  (forall p, os_remove Sample.small_files p = None) /\
  result (scan Sample.small_files cfg walk 0 []) =
  inr (2, ["media/a.jpg"; "media/B.PNG"]).
Proof.
  cbv zeta.
  assert (Hrm : forall p, os_remove Sample.small_files p = None)
    by reflexivity.
  split; [exact Hrm |].
  exact (scan_queue Sample.small_files
           (Sample.config "media" None 0 false)
           [("media", ["a.jpg"; "notes.txt"; "B.PNG"]);
            ("media/sub", ["c.gif"])] Hrm).
Defined.

(** ** Thumbnails *)

Lemma thumb_check_remove (W : World) (root p : string) :
  In (ERemove p) (trace (thumb_check W root)) ->
  p = thumb_of root /\ os_path_exists W p = true /\
  result (pil_check W p) <> inr tt.
Proof.
  unfold thumb_check. fold (thumb_of root).
  unfold pil_check, emit, call_, ret, bind, try_except, trace, result.
  cbn [fst snd any_Exception].
  destruct (os_path_exists W (thumb_of root)) eqn:Hex.
  2: { cbn. intros [H | []]. discriminate H. }
  destruct (pil_verify W (thumb_of root)) as [e |] eqn:Hv; cbn.
  - intros [H | [H | [H | [H | []]]]]; try discriminate H.
    injection H as <-. rewrite Hv. cbn. repeat split; auto.
    intros H; discriminate H.
  - destruct (pil_transpose W (thumb_of root)) as [e |] eqn:Ht; cbn.
    + intros [H | [H | [H | [H | [H | []]]]]]; try discriminate H.
      injection H as <-. rewrite Hv, Ht. cbn. repeat split; auto.
      intros H; discriminate H.
    + intros [H | [H | [H | []]]]; discriminate H.
Qed.

(** X15.  The only file the scan ever removes is the [.thumb] of a
    directory it visits (the top directory only, unless it recurses), and
    only when that file exists and [pil_check] rejected it: a thumbnail
    that passes the check is kept, nothing is removed in a directory the
    scan does not visit, and no media file is ever removed. *)
Theorem scan_removes_only_bad_thumbs (W : World) (cfg : Config)
        (walk : list (string * list string)) (pre_count : Z)
        (task_queue : list string) (p : string) :
  In (ERemove p) (trace (scan W cfg walk pre_count task_queue)) ->
  exists root files,
    In (root, files) (visited cfg walk) /\ p = thumb_of root /\
    os_path_exists W p = true /\ result (pil_check W p) <> inr tt.
Proof.
  revert pre_count task_queue.
  induction walk as [| [root files] walk IH]; intros pre_count task_queue.
  - intros [].
  - cbn [scan]. rewrite trace_bind.
    assert (Hfirst : In (root, files) (visited cfg ((root, files) :: walk))).
    { unfold visited. destruct (is_recurse cfg); now left. }
    assert (Hhere : In (ERemove p) (trace (thumb_check W root)) ->
                    exists root0 files0,
                      In (root0, files0) (visited cfg ((root, files) :: walk)) /\
                      p = thumb_of root0 /\ os_path_exists W p = true /\
                      result (pil_check W p) <> inr tt).
    { intros H. apply thumb_check_remove in H.
      exists root, files. split; [exact Hfirst | exact H]. }
    destruct (result (thumb_check W root)) as [e | []]; [exact Hhere |].
    intros H. apply in_app_or in H. destruct H as [H | H]; [auto |].
    destruct (is_recurse cfg) eqn:Hrec; cbn [negb] in H; [| destruct H].
    apply IH in H. destruct H as (root0 & files0 & Hin & Hrest).
    exists root0, files0. split; [| exact Hrest].
    unfold visited in *. rewrite Hrec in *. now right.
Qed.

Lemma scan_removes_only_bad_thumbs_witness :
  let W := {| os_stat_size := fun _ => inr 5;
              file_read := fun _ => inr [];
              pil_verify := fun _ => Some (Exn OSError [VStr "truncated"]);
              pil_transpose := fun _ => None;
              wand_image := fun _ => None;
              wand_make_blob := fun _ => None;
              magick_identify := fun _ => inr 0;
              ffmpeg_run := fun _ _ => None;
              os_path_isfile := fun _ => false;
              os_path_exists := fun _ => true;
              os_remove := fun _ => None;
              os_walk := fun _ => [];
              pil_simd := true;
              open_write := fun _ => None;
              time_time := Sample.seconds;
              out_queue_get := Sample.no_queue |} in
  let cfg := Sample.config "media" None 0 false in
  let walk := [("media", ["a.jpg"]); ("media/sub", ["b.jpg"])] in
  In (ERemove "media/.thumb") (trace (scan W cfg walk 0 [])) /\
  ~ In (ERemove "media/sub/.thumb") (trace (scan W cfg walk 0 [])) /\
  exists root files,
    In (root, files) (visited cfg walk) /\
    "media/.thumb" = thumb_of root /\
    os_path_exists W "media/.thumb" = true /\
    result (pil_check W "media/.thumb") <> inr tt.
Proof.
  cbv zeta.
  match goal with
  | |- ?A /\ _ => assert (Hin : A) by (vm_compute; tauto)
  end.
  split; [exact Hin |]. split.
  - vm_compute. intros H.
    repeat (destruct H as [H | H]; [discriminate H |]). exact H.
  - exact (scan_removes_only_bad_thumbs _ _ _ _ _ _ Hin).
Defined.

(** ** The worker *)

Lemma worker_loop_run (g : Globals) (W : World) (CONFIG : Config)
      (in_queue : list string) (out_queue : list outcome) :
  exists t outs,
    worker_loop g W CONFIG in_queue out_queue =
      (t, ((out_queue ++ outs)%list, inl (Exn Empty []))) /\
    map outcome_path outs = in_queue.
Proof.
  revert out_queue. induction in_queue as [| f in_queue IH]; intros out_queue.
  - exists [], []. rewrite app_nil_r. split; reflexivity.
  - cbn [worker_loop]. unfold sbind, lift, get, put, worker_check.
    destruct (check_file_returns g W f "" (error_detect CONFIG)
                (zero_detect CONFIG) default_ffmpeg_threads)
      as (t & ok & error & size & ->).
    cbn [fst snd].
    destruct (IH (out_queue ++ [(ok, (f, error, size))])%list)
      as (t' & outs & Hrun & Hmap).
    exists (t ++ t')%list, ((ok, (f, error, size)) :: outs).
    split; [| cbn; now rewrite Hmap].
    match goal with
    | |- context [worker_loop g W CONFIG in_queue ?q] =>
        change q with (out_queue ++ [(ok, (f, error, size))])%list;
        rewrite Hrun
    end.
    cbn [app]. now rewrite <- app_assoc.
Qed.

(** X16.  A worker puts exactly one outcome on the output queue for every task
    it takes, in the order taken and each about the task's own path,
    whether the check succeeded or failed; when no task is left it prints
    its closing line and returns.  No outcome of [check_file] makes it
    exit with an error. *)
Theorem worker_publishes (g : Globals) (W : World) (CONFIG : Config)
        (in_queue : list string) (out_queue : list outcome) :
  exists t outs,
    worker g W CONFIG in_queue out_queue =
      ((t ++ [closing_line])%list,
       ((out_queue ++ outs)%list, inr Returned)) /\
    map outcome_path outs = in_queue.
Proof.
  destruct (worker_loop_run g W CONFIG in_queue out_queue)
    as (t & outs & Hrun & Hmap).
  exists t, outs. split; [| exact Hmap].
  unfold worker, stry, sbind. rewrite Hrun. reflexivity.
Qed.

(** ** The logger's state *)

(** The three ways a call of [print_log] can go. *)
Lemma print_log_cases (now : Q) (n b total wmin : Z) (force : bool)
      (self : TimedLogger) :
  let r := Logger.print_log now n b total wmin force self in
  (r = ([], (self, inr tt)) /\ force = false) \/
  (exists e, r = ([], (logger_after self now total, inl e))) \/
  (exists p q1 q2,
     r = ([EPrintProgress b n p; EPrintSpeed q1 q2],
          (logger_after self now total, inr tt))).
Proof.
  cbv zeta.
  unfold Logger.print_log, sbind, get, put, Logger.truediv, lift, emit,
         sret, sraise, logger_after.
  destruct force; cbn [negb andb orb].
  - rewrite orb_true_r. cbv beta iota.
    destruct (Qeq_bool (inject_Z Logger.MiB * (now - start_time self)) 0);
      [right; left; eexists; reflexivity |].
    cbv beta iota.
    destruct (Qeq_bool (now - start_time self) 0);
      [right; left; eexists; reflexivity |].
    right; right. do 3 eexists. reflexivity.
  - destruct (total - previous_size self <? wmin * Logger.MiB);
      [left; split; reflexivity |].
    rewrite orb_false_r.
    destruct (Logger.Qgtb (now - previous_time self)
                          (inject_Z UPDATE_SEC_INTERVAL));
      [| left; split; reflexivity].
    cbv beta iota.
    destruct (Qeq_bool (inject_Z Logger.MiB * (now - start_time self)) 0);
      [right; left; eexists; reflexivity |].
    cbv beta iota.
    destruct (Qeq_bool (now - start_time self) 0);
      [right; left; eexists; reflexivity |].
    right; right. do 3 eexists. reflexivity.
Qed.

(** X20.  [print_log] moves its reference point exactly when it prints: a
    call that prints sets [previous_time] and [previous_size] to the
    time and the total of that call, and a call that returns without
    printing leaves the logger as it was, so the bytes and the seconds
    are counted from the last printing and not from the last call. *)
Theorem print_log_reference_point (now : Q) (n b total wmin : Z)
        (force : bool) (self l : TimedLogger) (t : list event) :
  Logger.print_log now n b total wmin force self = (t, (l, inr tt)) ->
  (t <> [] /\ l = logger_after self now total) \/ (t = [] /\ l = self).
Proof.
  intros Hrun.
  destruct (print_log_cases now n b total wmin force self)
    as [[H _] | [[e H] | (p & q1 & q2 & H)]];
    cbv zeta in H; rewrite H in Hrun.
  - injection Hrun as <- <-. now right.
  - discriminate Hrun.
  - injection Hrun as <- <-. left. split; [discriminate | reflexivity].
Qed.

Lemma print_log_reference_point_witness :
  let self := Logger.start 0 Logger.init in
  exists t l,
    Logger.print_log 6 4 1 (600 * Logger.MiB) UPDATE_MB_INTERVAL false self
    = (t, (l, inr tt)) /\
    ((t <> [] /\ l = logger_after self 6 (600 * Logger.MiB)) \/
     (t = [] /\ l = self)).
Proof.
  cbv zeta. do 2 eexists.
  assert (Hrun : Logger.print_log 6 4 1 (600 * Logger.MiB)
                   UPDATE_MB_INTERVAL false (Logger.start 0 Logger.init) =
                 ([EPrintProgress 1 4 (inject_Z (600 * Logger.MiB)
                                       / inject_Z Logger.MiB);
                   EPrintSpeed (inject_Z (600 * Logger.MiB)
                                / (inject_Z Logger.MiB * (6 - 0)))
                               (inject_Z 4 / (6 - 0))],
                  (logger_after (Logger.start 0 Logger.init) 6
                                (600 * Logger.MiB), inr tt)))
    by reflexivity.
  split; [exact Hrun |].
  exact (print_log_reference_point _ _ _ _ _ _ _ _ _ Hrun).
Defined.

(** X21.  After a call that printed at time [now], a call without [force]
    prints nothing as long as no more than [UPDATE_SEC_INTERVAL] seconds
    have passed since [now], however many bytes have been added, and
    also as long as fewer bytes than the threshold have been added,
    however late it is. *)
Theorem print_log_not_twice (now now' : Q) (n b total wmin : Z)
        (n' b' total' wmin' : Z) (force : bool) (self l : TimedLogger)
        (t : list event) :
  Logger.print_log now n b total wmin force self = (t, (l, inr tt)) ->
  t <> [] ->
  (now' - now <= inject_Z UPDATE_SEC_INTERVAL)%Q \/
  total' - total < wmin' * Logger.MiB ->
  Logger.print_log now' n' b' total' wmin' false l = ([], (l, inr tt)).
Proof.
  intros Hrun Ht Hclose.
  destruct (print_log_cases now n b total wmin force self)
    as [[H _] | [[e H] | (p & q1 & q2 & H)]];
    cbv zeta in H; rewrite H in Hrun;
    [injection Hrun as <- <-; now contradiction Ht
    | discriminate Hrun
    | injection Hrun as <- <-].
  unfold Logger.print_log, sbind, get, sret, logger_after.
  cbn [negb andb orb previous_size previous_time].
  destruct (total' - total <? wmin' * Logger.MiB) eqn:Hbytes;
    [reflexivity |].
  destruct Hclose as [Htime | Hlt]; [| lia].
  assert (Hq : Logger.Qgtb (now' - now) (inject_Z UPDATE_SEC_INTERVAL)
               = false).
  { unfold Logger.Qgtb. apply negb_false_iff. now apply Qle_bool_iff. }
  rewrite Hq. reflexivity.
Qed.

Lemma print_log_not_twice_witness :
  let self := Logger.start 0 Logger.init in
  let l := logger_after self 6 (600 * Logger.MiB) in
  exists t,
    Logger.print_log 6 4 1 (600 * Logger.MiB) UPDATE_MB_INTERVAL true self
    = (t, (l, inr tt)) /\
    t <> [] /\
    ((9 - 6 <= inject_Z UPDATE_SEC_INTERVAL)%Q \/
     5000 * Logger.MiB - 600 * Logger.MiB < UPDATE_MB_INTERVAL * Logger.MiB) /\
    Logger.print_log 9 9 1 (5000 * Logger.MiB) UPDATE_MB_INTERVAL false l
    = ([], (l, inr tt)).
Proof.
  cbv zeta. eexists.
  assert (Hrun : Logger.print_log 6 4 1 (600 * Logger.MiB)
                   UPDATE_MB_INTERVAL true (Logger.start 0 Logger.init) =
                 ([EPrintProgress 1 4 (inject_Z (600 * Logger.MiB)
                                       / inject_Z Logger.MiB);
                   EPrintSpeed (inject_Z (600 * Logger.MiB)
                                / (inject_Z Logger.MiB * (6 - 0)))
                               (inject_Z 4 / (6 - 0))],
                  (logger_after (Logger.start 0 Logger.init) 6
                                (600 * Logger.MiB), inr tt)))
    by reflexivity.
  assert (Hne : [EPrintProgress 1 4 (inject_Z (600 * Logger.MiB)
                                     / inject_Z Logger.MiB);
                 EPrintSpeed (inject_Z (600 * Logger.MiB)
                              / (inject_Z Logger.MiB * (6 - 0)))
                             (inject_Z 4 / (6 - 0))] <> [])
    by discriminate.
  assert (Hclose : (9 - 6 <= inject_Z UPDATE_SEC_INTERVAL)%Q \/
                   5000 * Logger.MiB - 600 * Logger.MiB
                   < UPDATE_MB_INTERVAL * Logger.MiB).
  { left. unfold Qle. cbn. lia. }
  split; [exact Hrun |]. split; [exact Hne |]. split; [exact Hclose |].
  exact (print_log_not_twice 6 9 4 1 (600 * Logger.MiB) UPDATE_MB_INTERVAL
           9 1 (5000 * Logger.MiB) UPDATE_MB_INTERVAL true _ _ _
           Hrun Hne Hclose).
Defined.

(** ** When the folder check writes no report *)

Lemma lacks_report_no_write (t : list event) :
  lacks is_report_event t <-> forall csv rows, ~ In (EWriteCsv csv rows) t.
Proof.
  unfold lacks. rewrite Forall_forall. split.
  - intros H csv rows Hin. specialize (H _ Hin). discriminate H.
  - intros H ev Hin. destruct ev; try reflexivity.
    exfalso. exact (H _ _ Hin).
Qed.

(** The final report writes the CSV only with a bad count above 0. *)
Lemma final_report_needs_failures (W : World) (cfg : Config)
      (pre_count : Z) (s : Locals) (csv : string) (rows : list tuple) :
  In (EWriteCsv csv rows) (fst (final_report W cfg pre_count s)) ->
  0 < count_bad s.
Proof.
  destruct (Z.ltb_spec 0 (count_bad s)) as [Hpos | Hle]; [auto |].
  intros Hin. exfalso. revert Hin.
  apply (proj1 (lacks_report_no_write _)).
  unfold final_report, sbind, lift, emit, get, with_logger, sret.
  cbn [fst snd].
  destruct (print_log_run (time_time W (S (Z.to_nat pre_count)))
              (count s) (count_bad s) (total_file_size s)
              UPDATE_MB_INTERVAL true (timed_logger s))
    as (t1 & l & r1 & -> & Ht1 & _).
  destruct r1 as [e | []]; [report_free |].
  cbn [count count_bad bad_files_info].
  assert (Hbad : (count_bad s >? 0) = false) by lia.
  rewrite Hbad. cbn [andb].
  destruct (count_bad s =? 0); cbn [fst snd]; report_free.
Qed.

Lemma got_successes (W : World) (j : nat) (received : list outcome) :
  (forall i o, out_queue_get W i = Some o -> fst o = true) ->
  got W j received -> failures received = [].
Proof.
  intros Hall. revert j. induction received as [| o received IH]; intros j.
  - reflexivity.
  - intros [Hget Hrest]. unfold failures, failed in *. cbn [filter].
    rewrite (Hall j o Hget). cbn [negb]. exact (IH (S j) Hrest).
Qed.

Lemma got_nth (W : World) (j : nat) (received : list outcome) (i : nat) :
  got W j received -> (i < List.length received)%nat ->
  exists o, out_queue_get W (j + i) = Some o.
Proof.
  revert j i. induction received as [| o received IH]; intros j i.
  - cbn. lia.
  - intros [Hget Hrest] Hi. destruct i as [| i].
    + rewrite Nat.add_0_r. eauto.
    + replace (j + S i)%nat with (S j + i)%nat by lia.
      apply IH; [exact Hrest | cbn in Hi; lia].
Qed.

(** Where a report written by the folder check comes from. *)
Lemma report_origin (W : World) (cfg : Config) (check_path csv : string)
      (rows : list tuple) :
  In (EWriteCsv csv rows)
     (fst (main_folder W cfg check_path (initial_locals W))) ->
  csv_filename cfg = Some csv /\
  exists received, got W 0 received /\ failures received <> [].
Proof.
  unfold main_folder, sbind, lift. cbn [fst snd].
  pose proof (scan_lacks_report W cfg (os_walk W check_path) 0 []) as Hscan.
  pose proof (proj1 (lacks_report_no_write _) Hscan) as Hscan'.
  clear Hscan; rename Hscan' into Hscan.
  destruct (scan W cfg (os_walk W check_path) 0 [])
    as [ts [e | [pre_count task_queue]]];
    cbn [trace fst snd] in *.
  { intros Hin. exfalso. exact (Hscan _ _ Hin). }
  rewrite consume_unfold.
  destruct (collect_loop_counts W (Z.to_nat pre_count) 0 (initial_locals W))
    as (t & s1 & r & received & -> & Hgot & Ht & Hbad & _ & _ & _).
  pose proof (proj1 (lacks_report_no_write _) Ht) as Ht'.
  clear Ht; rename Ht' into Ht.
  destruct r as [e | u].
  { cbn [fst]. intros Hin. exfalso. apply in_app_or in Hin.
    destruct Hin as [Hin | Hin]; [exact (Hscan _ _ Hin) | exact (Ht _ _ Hin)]. }
  pose proof (final_report_needs_failures W cfg pre_count s1 csv rows)
    as Hneed.
  destruct (final_report_run W cfg pre_count s1)
    as (t' & s' & r' & Hrun & _ & _ & Hwrite).
  rewrite Hrun in *. cbn [fst] in *. intros Hin.
  assert (Hin' : In (EWriteCsv csv rows) t').
  { apply in_app_or in Hin. destruct Hin as [Hin | Hin];
      [exfalso; exact (Hscan _ _ Hin) |].
    apply in_app_or in Hin. destruct Hin as [Hin | Hin];
      [exfalso; exact (Ht _ _ Hin) | exact Hin]. }
  split; [exact (proj1 (Hwrite csv rows Hin')) |].
  exists received. split; [exact Hgot |].
  specialize (Hneed Hin'). cbn [initial_locals count_bad] in Hbad.
  intros Hnil. rewrite Hnil in Hbad. cbn in Hbad. lia.
Qed.

Lemma main_single_lacks_report (W : World) (cfg : Config) (path : string) :
  lacks is_report_event (trace (main_single W cfg path)).
Proof.
  unfold main_single. apply lacks_bind.
  - apply check_file_lacks. intros ev Hev. destruct ev; try discriminate Hev;
      reflexivity.
  - intros is_success. unfold log_check_outcome.
    destruct (snd is_success) as [[? ?] ?]. unfold emit, ret. quiet.
Qed.

(** X23.  Without the [-c] option no run of [main] writes a CSV file, whatever
    is found. *)
Theorem no_csv_without_option (W : World) (cfg : Config) :
  csv_filename cfg = None ->
  lacks is_report_event (fst (main W cfg)).
Proof.
  intros Hcsv. unfold main.
  destruct (bind (banner W) _) as [t0 r0] eqn:Hpro.
  assert (H0 : lacks is_report_event t0).
  { change t0 with (trace (t0, r0)). rewrite <- Hpro.
    unfold banner, emit, ret. quiet. }
  destruct (os_path_isfile W (checkpath cfg)).
  - pose proof (main_single_lacks_report W cfg (checkpath cfg)) as H.
    destruct (main_single W cfg (checkpath cfg)) as [t r]. cbn in *.
    apply Forall_app. now split.
  - destruct (main_folder W cfg (checkpath cfg) (initial_locals W))
      as [t [s r]] eqn:Hrun.
    cbn. apply Forall_app. split; [assumption |].
    apply lacks_report_no_write. intros csv rows Hin.
    assert (Hin' : In (EWriteCsv csv rows)
                      (fst (main_folder W cfg (checkpath cfg)
                                        (initial_locals W))))
      by now rewrite Hrun.
    apply report_origin in Hin'. destruct Hin' as [H _]. congruence.
Qed.

Lemma no_csv_without_option_witness :
  let cfg := Sample.config "media" None 0 false in
  csv_filename cfg = None /\
  lacks is_report_event (fst (main Sample.prompt cfg)).
Proof.
  cbv zeta. split; [reflexivity |].
  apply no_csv_without_option. reflexivity.
Defined.

(** X24.  When every outcome the collector receives is a success, the folder
    check writes no CSV file even with the [-c] option: a file left by
    an earlier run is neither emptied nor replaced. *)
Theorem no_csv_without_failures (W : World) (cfg : Config)
        (check_path : string) :
  (forall j o, out_queue_get W j = Some o -> fst o = true) ->
  lacks is_report_event
        (fst (main_folder W cfg check_path (initial_locals W))).
Proof.
  intros Hall. apply lacks_report_no_write. intros csv rows Hin.
  apply report_origin in Hin.
  destruct Hin as (_ & received & Hgot & Hne).
  apply Hne. exact (got_successes W 0 received Hall Hgot).
Qed.

Lemma no_csv_without_failures_witness :
  let W := Sample.world (fun _ => inr 5) (fun _ => inr Sample.five_bytes)
             (fun _ => [("media", ["a.jpg"; "b.jpg"])]) Sample.seconds
             (fun _ => Some Sample.second_outcome) in
  let cfg := Sample.config "media" (Some "bad.csv") 0 false in
  (forall j o, out_queue_get W j = Some o -> fst o = true) /\
  lacks is_report_event (fst (main_folder W cfg "media" (initial_locals W))).
Proof.
  cbv zeta.
  match goal with
  | |- ?A /\ _ => assert (Hall : A)
  end.
  { intros j o H. cbn in H. injection H as <-. reflexivity. }
  split; [exact Hall |].
  exact (no_csv_without_failures _ _ "media" Hall).
Defined.

(** ** Runs without outcomes and runs that stall *)

(** A forced call prints when the clock has moved since the start. *)
Lemma print_log_forced (now : Q) (n b total wmin : Z) (self : TimedLogger) :
  ~ (now == start_time self)%Q ->
  exists p q1 q2,
    Logger.print_log now n b total wmin true self =
    ([EPrintProgress b n p; EPrintSpeed q1 q2],
     (logger_after self now total, inr tt)).
Proof.
  intros Hne.
  destruct (elapsed_nonzero now (start_time self) Hne) as [H1 H2].
  unfold Logger.print_log, sbind, get, put, Logger.truediv, lift, emit.
  cbn [negb andb]. rewrite orb_true_r. cbv beta iota.
  rewrite H2. unfold sret. cbv beta iota. rewrite H1.
  do 3 eexists. reflexivity.
Qed.

(** X25.  When the scan finds no file to check, the folder check waits for no
    outcome: it goes straight to the final report, prints the progress
    line with 0 bad files out of 0 and reports that the files are OK,
    provided the clock has moved since the logger was started. *)
Theorem nothing_to_check (W : World) (cfg : Config) (check_path : string)
        (ts : list event) (task_queue : list string) :
  scan W cfg (os_walk W check_path) 0 [] = (ts, inr (0, task_queue)) ->
  ~ (time_time W 1 == time_time W 0)%Q ->
  exists size speed_MB speed_IS s,
    main_folder W cfg check_path (initial_locals W) =
    ((ts ++ [EPrint [VStr (nl ++ "**Task completed**" ++ nl)];
             EPrintProgress 0 0 size;
             EPrintSpeed speed_MB speed_IS;
             EPrint [VStr "The files are OK :-)"]])%list,
     (s, inr Returned)).
Proof.
  intros Hscan Hclock.
  unfold main_folder, sbind at 1, lift. rewrite Hscan. cbn [fst snd].
  rewrite consume_unfold. cbn [Z.to_nat collect_loop sret].
  unfold final_report, sbind, lift, emit, get, with_logger, sret.
  cbn [fst snd initial_locals count count_bad total_file_size timed_logger
       bad_files_info].
  change (Z.to_nat 0) with 0%nat.
  destruct (print_log_forced (time_time W 1) 0 0 0 UPDATE_MB_INTERVAL
              (Logger.start (time_time W 0) Logger.init) Hclock)
    as (p & q1 & q2 & Hlog).
  rewrite Hlog.
  cbn [fst snd count count_bad total_file_size bad_files_info Z.gtb
       Z.compare andb Z.eqb app].
  do 4 eexists. reflexivity.
Qed.

Lemma nothing_to_check_witness :
  let cfg := Sample.config "media" (Some "bad.csv") 0 false in
  let W := Sample.world (fun _ => inr 5) (fun _ => inr Sample.five_bytes)
             (fun _ => [("media", ["notes.txt"])]) Sample.seconds
             Sample.no_queue in
  scan W cfg (os_walk W "media") 0 [] =
    ([EPathExists "media/.thumb"], inr (0, [])) /\
  ~ (time_time W 1 == time_time W 0)%Q /\
  exists size speed_MB speed_IS s,
    main_folder W cfg "media" (initial_locals W) =
    (([EPathExists "media/.thumb"] ++
      [EPrint [VStr (nl ++ "**Task completed**" ++ nl)];
       EPrintProgress 0 0 size;
       EPrintSpeed speed_MB speed_IS;
       EPrint [VStr "The files are OK :-)"]])%list,
     (s, inr Returned)).
Proof.
  cbv zeta.
  match goal with
  | |- ?A /\ ?B /\ _ => assert (Hscan : A) by reflexivity;
                        assert (Hclock : B) by (intros H; discriminate H)
  end.
  split; [exact Hscan |]. split; [exact Hclock |].
  exact (nothing_to_check _ _ "media" _ _ Hscan Hclock).
Defined.

(** X26.  A wait that times out before all expected outcomes have arrived
    never leads to the final report: [main] ends with an exception, and
    no CSV file is written, however many failures had been collected. *)
Theorem stalled_run_raises (W : World) (cfg : Config) (check_path : string)
        (ts : list event) (pre_count : Z) (task_queue : list string)
        (j : nat) :
  scan W cfg (os_walk W check_path) 0 [] =
    (ts, inr (pre_count, task_queue)) ->
  (j < Z.to_nat pre_count)%nat -> out_queue_get W j = None ->
  exists t s e,
    main_folder W cfg check_path (initial_locals W) = (t, (s, inl e)) /\
    lacks is_report_event t.
Proof.
  intros Hscan Hj Hnone.
  pose proof (scan_lacks_report W cfg (os_walk W check_path) 0 []) as Hts.
  rewrite Hscan in Hts. cbn [trace fst] in Hts.
  unfold main_folder, sbind at 1, lift. rewrite Hscan. cbn [fst snd].
  rewrite consume_unfold.
  destruct (collect_loop_counts W (Z.to_nat pre_count) 0 (initial_locals W))
    as (t & s1 & r & received & -> & Hgot & Ht & _ & _ & _ & Hcount).
  destruct r as [e | u].
  - do 3 eexists. split; [reflexivity |]. report_free.
  - exfalso. destruct Hcount as [Hlen _].
    destruct (got_nth W 0 received j Hgot) as [o Ho]; [lia |].
    cbn in Ho. congruence.
Qed.

Lemma stalled_run_raises_witness :
  let cfg := Sample.config "media" (Some "bad.csv") 0 false in
  scan Sample.stalled cfg (os_walk Sample.stalled "media") 0 [] =
    ([EPathExists "media/.thumb"], inr (2, ["media/a.jpg"; "media/b.jpg"])) /\
  (1 < Z.to_nat 2)%nat /\ out_queue_get Sample.stalled 1 = None /\
  exists t s e,
    main_folder Sample.stalled cfg "media" (initial_locals Sample.stalled)
    = (t, (s, inl e)) /\
    lacks is_report_event t.
Proof.
  cbv zeta.
  match goal with
  | |- ?A /\ ?B /\ ?C /\ _ =>
      assert (Hscan : A) by reflexivity;
      assert (Hj : B) by (cbn; lia);
      assert (Hnone : C) by reflexivity
  end.
  split; [exact Hscan |]. split; [exact Hj |]. split; [exact Hnone |].
  exact (stalled_run_raises _ _ "media" _ _ _ 1%nat Hscan Hj Hnone).
Defined.

(** ** Extensions no probe is run for, and options the single check ignores *)

(** X4.  A file whose extension is in none of the lists [check_file] tests
    (an unknown extension, an audio one, an extra one when extras are
    disabled) is reported as a success once its size is known not to be
    0: no decoder looks at it. *)
Theorem check_file_unprobed_extension (g : Globals) (W : World)
        (filename nominate error_detect : string)
        (zero_detect threads n : Z) :
  os_stat_size W filename = inr n -> n <> 0 -> zero_detect <= 0 ->
  mem (file_ext_of filename nominate) (PIL_EXTENSIONS g) = false ->
  mem (file_ext_of filename nominate) MAGICK_EXTENSIONS = false ->
  mem (file_ext_of filename nominate) VIDEO_EXTENSIONS = false ->
  check_file g W filename nominate error_detect zero_detect threads =
  ([EStat filename], inr (true, (filename, None, Bytes n))).
Proof.
  intros Hstat Hn Hz Hpil Hmagick Hvideo.
  assert (Hzd : (zero_detect >? 0) = false) by lia.
  apply Z.eqb_neq in Hn.
  rewrite check_file_ext. unfold check_file_probes, check_size, call.
  rewrite Hzd, Hpil, Hmagick, Hvideo, Hstat. cbn. rewrite Hn. reflexivity.
Qed.

Lemma check_file_unprobed_extension_witness :
  let g := globals {| checkpath := "media"; csv_filename := None;
                      is_recurse := false; zero_detect := 0;
                      is_disable_image := false; is_enable_media := true;
                      is_disable_extra := true; error_detect := "default";
                      threads := 2; timeout := 120 |} in
  os_stat_size Sample.small_files "scan.TGA" = inr 5 /\ 5 <> 0 /\ 0 <= 0 /\
  mem (file_ext_of "scan.TGA" "") (PIL_EXTENSIONS g) = false /\
  mem (file_ext_of "scan.TGA" "") MAGICK_EXTENSIONS = false /\
  mem (file_ext_of "scan.TGA" "") VIDEO_EXTENSIONS = false /\
  check_file g Sample.small_files "scan.TGA" "" "default" 0 0 =
  ([EStat "scan.TGA"], inr (true, ("scan.TGA", None, Bytes 5))).
Proof.
  cbv zeta.
  assert (Hn : 5 <> 0) by lia. assert (Hz : 0 <= 0) by lia.
  split; [reflexivity |]. split; [exact Hn |]. split; [exact Hz |].
  split; [reflexivity |]. split; [reflexivity |]. split; [reflexivity |].
  apply check_file_unprobed_extension;
    [reflexivity | exact Hn | exact Hz | reflexivity | reflexivity
    | reflexivity].
Defined.

(** X19.  The single file check depends on the options only through the path,
    the error detection mode and [-e]: two configurations that agree on
    these give the same run, whatever [-i], [-m], [-r], [-z], [-c], [-t]
    and [-T] say. *)
Theorem single_file_ignores_options (W : World) (cfg cfg' : Config) :
  os_path_isfile W (checkpath cfg) = true ->
  checkpath cfg = checkpath cfg' ->
  error_detect cfg = error_detect cfg' ->
  is_disable_extra cfg = is_disable_extra cfg' ->
  main W cfg = main W cfg'.
Proof.
  intros Hfile Hpath Hed Hextra.
  unfold main. rewrite <- Hpath, Hfile.
  replace (main_single W cfg' (checkpath cfg))
    with (main_single W cfg (checkpath cfg)); [reflexivity |].
  unfold main_single. rewrite <- Hed.
  replace (check_file (globals cfg') W (checkpath cfg) "" (error_detect cfg)
                      default_zero_detect default_ffmpeg_threads)
    with (check_file (globals cfg) W (checkpath cfg) "" (error_detect cfg)
                     default_zero_detect default_ffmpeg_threads);
    [reflexivity |].
  unfold check_file, check_file_probes, default_zero_detect.
  change (0 >? 0) with false. cbv iota.
  replace (PIL_EXTENSIONS (globals cfg'))
    with (PIL_EXTENSIONS (globals cfg)); [reflexivity |].
  unfold globals, setup. cbn [PIL_EXTENSIONS]. now rewrite Hextra.
Qed.

Lemma single_file_ignores_options_witness :
  let cfg := Sample.config "photo.jpg" None 0 false in
  let cfg' := {| checkpath := "photo.jpg"; csv_filename := Some "bad.csv";
                 is_recurse := true; zero_detect := 4000;
                 is_disable_image := true; is_enable_media := true;
                 is_disable_extra := false; error_detect := "default";
                 threads := 8; timeout := 5 |} in
  os_path_isfile Sample.small_files (checkpath cfg) = true /\
  checkpath cfg = checkpath cfg' /\
  error_detect cfg = error_detect cfg' /\
  is_disable_extra cfg = is_disable_extra cfg' /\
  main Sample.small_files cfg = main Sample.small_files cfg'.
Proof.
  cbv zeta. repeat (split; [reflexivity |]).
  apply single_file_ignores_options; reflexivity.
Defined.

(** ** The extension of a path *)

Lemma lower_app (a b : string) : lower (a ++ b) = lower a ++ lower b.
Proof. induction a as [| x a IH]; cbn; [reflexivity | now rewrite IH]. Qed.

Lemma rfind_upper_bound (s : string) (c : ascii) :
  rfind s c < Z.of_nat (String.length s).
Proof.
  induction s as [| a s IH]; cbn [rfind String.length]; [lia |].
  destruct (0 <=? rfind s c); [lia |].
  destruct (Ascii.eqb a c); lia.
Qed.

Lemma rfind_append (a b : string) (c : ascii) :
  rfind (a ++ b) c =
  if 0 <=? rfind b c then Z.of_nat (String.length a) + rfind b c
  else rfind a c.
Proof.
  pose proof (rfind_lower_bound c b) as Hlb.
  induction a as [| x a IH]; cbn [append rfind String.length].
  - destruct (0 <=? rfind b c) eqn:H; lia.
  - rewrite IH. destruct (0 <=? rfind b c) eqn:H; [| reflexivity].
    assert (E : (0 <=? Z.of_nat (String.length a) + rfind b c) = true)
      by lia.
    rewrite E. lia.
Qed.

Lemma drop_add (n m : nat) (s : string) :
  drop (n + m) s = drop m (drop n s).
Proof.
  revert s. induction n as [| n IH]; intros s; [reflexivity |].
  destruct s as [| a s]; cbn; [now destruct m | apply IH].
Qed.

(** X12.  Only the last component of a path counts for its extension: dots in
    the names of the directories above the file are never taken for the
    start of an extension. *)
Theorem get_extension_of_path (dir name : string) :
  ~ occurs OsPath.sep name ->
  get_extension (dir ++ String OsPath.sep name) = get_extension name.
Proof.
  intros Hsep. unfold get_extension. f_equal. rewrite lower_app.
  cbn [lower]. change (lower_ascii OsPath.sep) with OsPath.sep.
  assert (HN : ~ occurs OsPath.sep (lower name))
    by (now rewrite lower_occurs by auto).
  rewrite (splitext_basename (lower name) HN).
  set (D := lower dir). set (N := lower name) in *.
  unfold OsPath.splitext. cbv zeta.
  rewrite (rfind_app OsPath.sep D N HN).
  rewrite (rfind_append D (String OsPath.sep N) OsPath.extsep).
  pose proof (rfind_lower_bound OsPath.extsep N) as Hlb.
  pose proof (rfind_upper_bound D OsPath.extsep) as Hub.
  cbn [rfind]. change (Ascii.eqb OsPath.sep OsPath.extsep) with false.
  destruct (0 <=? rfind N OsPath.extsep) eqn:Hdot.
  - assert (E : (0 <=? rfind N OsPath.extsep + 1) = true) by lia.
    rewrite E.
    assert (Hgt : (Z.of_nat (String.length D) + (rfind N OsPath.extsep + 1)
                   >? Z.of_nat (String.length D)) = true) by lia.
    rewrite Hgt.
    destruct (rfind_split OsPath.extsep N) as [Hsplit _]; [lia |].
    set (d := Z.to_nat (rfind N OsPath.extsep)) in *.
    replace (Z.to_nat
               (Z.of_nat (String.length D) + (rfind N OsPath.extsep + 1)
                - (Z.of_nat (String.length D) + 1)))
      with (String.length (take d N))
      by (rewrite (take_length _ _ _ _ Hsplit); unfold d; lia).
    replace (Z.of_nat (String.length D) + 1)
      with (Z.of_nat (S (String.length D))) by lia.
    assert (Hdrop : drop (S (String.length D)) (D ++ String OsPath.sep N)
                    = N).
    { replace (S (String.length D)) with (String.length D + 1)%nat by lia.
      rewrite drop_add, drop_app_length. reflexivity. }
    rewrite (skip_leading_dots_spec (D ++ String OsPath.sep N) _ (take d N)
               (String OsPath.extsep (drop (S d) N)) (S (String.length D)))
      by (rewrite Hdrop; exact Hsplit).
    destruct (all_dots (take d N)); [reflexivity |].
    cbn [snd]. unfold slice_from.
    replace (Z.to_nat (Z.of_nat (String.length D)
                       + (rfind N OsPath.extsep + 1)))
      with (S (String.length D) + d)%nat by (unfold d; lia).
    now rewrite drop_add, Hdrop.
  - cbn [Z.leb Z.compare].
    assert (Hle : (rfind D OsPath.extsep >? Z.of_nat (String.length D))
                  = false) by lia.
    rewrite Hle. reflexivity.
Qed.

Lemma get_extension_of_path_witness :
  ~ occurs OsPath.sep "README" /\
  get_extension ("my.photos/2024.01" ++ String OsPath.sep "README") =
  get_extension "README".
Proof.
  assert (Hsep : ~ occurs OsPath.sep "README").
  { cbn. intros H. repeat destruct H as [H | H]; try discriminate H.
    exact H. }
  split; [exact Hsep |].
  exact (get_extension_of_path "my.photos/2024.01" "README" Hsep).
Defined.

(** The instance of the zero-run failure at the file [07 07 00 00 00]
    and the threshold 3. *)
Lemma check_file_zero_run_fails_witness :
  let cfg := Sample.config "media" None 3 false in
  CONFIG (globals cfg) = Some cfg /\ 0 < zero_detect cfg /\
  os_stat_size Sample.small_files "scan.bin" = inr 5 /\ 5 <> 0 /\
  file_read Sample.small_files "scan.bin" = inr Sample.five_bytes /\
  has_run Sample.five_bytes 3 /\ zero_detect cfg <= Z.of_nat 3 /\
  exists v len,
    zero_detect cfg <= len /\
    check_file (globals cfg) Sample.small_files "scan.bin" "" "default"
               (zero_detect cfg) 0 =
    ([EStat "scan.bin"; EReadFile "scan.bin"],
     inr (false, ("scan.bin", Some (zero_run_message v len), Bytes 5))).
Proof.
  cbv zeta.
  assert (Hpos : 0 < zero_detect (Sample.config "media" None 3 false))
    by (cbn; lia).
  assert (Hn : 5 <> 0) by lia.
  assert (Hrun : has_run Sample.five_bytes 3)
    by (exists [x07; x07]%byte, x00%byte, []; reflexivity).
  assert (Hle : zero_detect (Sample.config "media" None 3 false)
                <= Z.of_nat 3) by (cbn; lia).
  split; [reflexivity |]. split; [exact Hpos |]. split; [reflexivity |].
  split; [exact Hn |]. split; [reflexivity |]. split; [exact Hrun |].
  split; [exact Hle |].
  exact (check_file_zero_run_fails
           (globals (Sample.config "media" None 3 false)) Sample.small_files
           (Sample.config "media" None 3 false) "scan.bin" "" "default" 0 5
           Sample.five_bytes 3 eq_refl Hpos eq_refl Hn eq_refl Hrun Hle).
Defined.

(** ** The collector and the report, from the queue's side *)



Lemma got_arrivals_prefix (W : World) (turns j : nat) (r : list outcome) :
  got W j r -> (List.length r <= turns)%nat ->
  firstn (List.length r) (arrivals W turns j) = r.
Proof.
  revert turns j. induction r as [| o r IH]; intros turns j Hgot Hlen.
  - reflexivity.
  - destruct turns as [| turns]; [cbn in Hlen; lia |].
    destruct Hgot as [Hget Hrest]. cbn [arrivals List.length firstn].
    rewrite Hget. cbn [firstn]. f_equal. apply IH; [exact Hrest |].
    cbn in Hlen. lia.
Qed.

Lemma got_arrivals_full (W : World) (turns j : nat) (r : list outcome) :
  got W j r -> List.length r = turns -> arrivals W turns j = r.
Proof.
  revert turns j. induction r as [| o r IH]; intros turns j Hgot Hlen.
  - subst turns. reflexivity.
  - destruct turns as [| turns]; [discriminate |].
    destruct Hgot as [Hget Hrest]. cbn [arrivals]. rewrite Hget.
    f_equal. apply IH; [exact Hrest | cbn in Hlen; lia].
Qed.

Lemma got_arrivals_timeout (W : World) (turns j : nat) (r : list outcome) :
  got W j r -> out_queue_get W (j + List.length r) = None ->
  arrivals W turns j = firstn turns r.
Proof.
  revert turns j. induction r as [| o r IH]; intros turns j Hgot Hnone.
  - cbn in Hnone. rewrite Nat.add_0_r in Hnone.
    destruct turns; cbn; [reflexivity | now rewrite Hnone].
  - destruct Hgot as [Hget Hrest].
    destruct turns as [| turns]; [reflexivity |].
    cbn [arrivals firstn]. rewrite Hget. f_equal.
    apply IH; [exact Hrest |].
    cbn [List.length] in Hnone.
    now replace (S j + List.length r)%nat
      with (j + S (List.length r))%nat by lia.
Qed.

Section Completion.

Variable W : World.


(** The exceptions that can end the collector loop, and how far
    [count] has moved by then. *)
Lemma collect_loop_raise (turns j : nat) (s s' : Locals) (t : list event)
      (e : exn) :
  collect_loop W turns j s = (t, (s', inl e)) ->
  (exn_cls e = Empty \/ exn_cls e = ZeroDivisionError) /\
  count s < count s' <= count s + Z.of_nat turns.
Proof.
  revert j s t. induction turns as [| turns IH]; intros j s t.
  - cbn. intros H. discriminate H.
  - cbn [collect_loop]. unfold sbind.
    destruct (out_queue_get W j) as [o |] eqn:Hget.
    + destruct (collect_body_received W j s o Hget)
        as (t1 & l & r1 & -> & _ & Hr1).
      destruct r1 as [e1 | []].
      * intros H. injection H as <- <- <-.
        split; [right; now apply Hr1 |]. cbn [absorb count]. lia.
      * destruct (collect_loop W turns (S j) (absorb o s l))
          as [t2 [s2 r2]] eqn:Hrest.
        intros H. injection H as <- <- ->.
        apply IH in Hrest. cbn [absorb count] in Hrest.
        split; [tauto | lia].
    + rewrite (collect_body_timeout W j s Hget).
      intros H. injection H as <- <- <-.
      split; [now left |]. cbn [count]. lia.
Qed.

End Completion.

(** X22.  How the collector loop ends, in terms of what the output queue
    delivers.  When the loop runs to its end, every one of its waits was
    served: the outcomes received are the queue's arrivals, their number
    is the number of turns and [count] is that number.  When a wait
    times out, the outcomes received are the arrivals before that wait
    and [count] is one more than their number.  When the logger raises
    [ZeroDivisionError], they are the arrivals up to the turn that
    raised and [count] is their number.  In every case [count_bad] is the
    number of failed outcomes among those received, so at most [count],
    and [total_file_size] is the sum of their known sizes. *)
Theorem collector_totals (W : World) (turns : nat) :
  exists t s' r received,
    collect_loop W turns 0 (initial_locals W) = (t, (s', r)) /\
    count_bad s' <= count s' /\
    count_bad s' = Z.of_nat (List.length (failures received)) /\
    total_file_size s' = known_bytes received /\
    match r with
    | inr _ =>
        received = arrivals W turns 0 /\
        List.length received = turns /\
        count s' = Z.of_nat turns
    | inl e =>
        if is_Empty (exn_cls e) then
          received = arrivals W turns 0 /\
          (List.length received < turns)%nat /\
          count s' = Z.of_nat (List.length received) + 1
        else
          exn_cls e = ZeroDivisionError /\
          received = firstn (List.length received) (arrivals W turns 0) /\
          (1 <= List.length received <= turns)%nat /\
          count s' = Z.of_nat (List.length received)
    end.
Proof.
  destruct (collect_loop_counts W turns 0 (initial_locals W))
    as (t & s' & r & received & Hrun & Hgot & _ & Hbad & Hbytes & _ & Hcount).
  exists t, s', r, received.
  assert (Hle : (List.length (failures received) <= List.length received)%nat).
  { unfold failures. rewrite length_map. apply filter_length_le. }
  cbn [initial_locals count count_bad total_file_size] in *.
  split; [exact Hrun |].
  destruct r as [e | u].
  - destruct (collect_loop_raise W turns 0 _ _ _ _ Hrun) as [Hcls Hbound].
    cbn [initial_locals count] in Hbound.
    destruct (is_Empty (exn_cls e)) eqn:Hempty.
    + destruct Hcount as [Hnone Hcount]. cbn [Nat.add] in Hnone.
      assert (Hlt : (List.length received < turns)%nat) by lia.
      split; [lia |]. split; [lia |]. split; [lia |].
      split; [| split; [exact Hlt | lia]].
      rewrite (got_arrivals_timeout W turns 0 received Hgot Hnone).
      symmetry. apply firstn_all2. lia.
    + assert (Hzde : exn_cls e = ZeroDivisionError).
      { destruct Hcls as [H | H]; [| exact H].
        rewrite H in Hempty. discriminate Hempty. }
      split; [lia |]. split; [lia |]. split; [lia |].
      split; [exact Hzde |]. split; [| split; lia].
      symmetry. apply got_arrivals_prefix; [exact Hgot | lia].
  - destruct Hcount as [Hlen Hcount].
    split; [lia |]. split; [lia |]. split; [lia |].
    split; [| split; [exact Hlen | lia]].
    symmetry. now apply got_arrivals_full.
Qed.

Section Writing.

Variables (W : World) (cfg : Config).





End Writing.


